(** * DTMF power switch: a shallow embedding of the controller sketch

    The sketch is a single-threaded Arduino program: [setup] runs once, then
    [loop] runs for ever.  Every global of the sketch is a field of [state];
    a [void] function of the sketch is a function [state -> state], a function
    that returns a value returns it next to the new state.

    Two revisions of the sketch are in the repository.  The embedding follows
    the later one (auto-off by key '2'/'5', hold by '3'/'6', voltage report,
    idle sleep, [pttDown] rearming the station-ID deadline); [checkDTMF],
    [sendElements], [sendChar], the body of [SendMorse], the [default] branch
    of [processKey] and the deadline tests of [loop] are the same text in
    both. *)

From Stdlib Require Import ZArith Lia Bool List.
From stdpp Require Import base tactics list functions.
Import ListNotations.
Open Scope Z_scope.

(** ** Machine integers of the AVR target *)

(** [unsigned long] is 32 bits wide: arithmetic on it is modulo 2^32. *)
Definition wrap32 (x : Z) : Z := x mod 2 ^ 32.

(** The cast [(long)x] of an [unsigned long]: the same 32 bits read in two's
    complement. *)
Definition to_long (x : Z) : Z :=
  if wrap32 x <? 2 ^ 31 then wrap32 x else wrap32 x - 2 ^ 32.

(** [unsigned char] and [uint8_t]. *)
Definition to_uchar (x : Z) : Z := x mod 256.

(** [char] is signed on this target: conversion keeps the low 8 bits. *)
Definition to_char (x : Z) : Z :=
  if x mod 256 <? 128 then x mod 256 else x mod 256 - 256.

(** [uint16_t]. *)
Definition to_uint16 (x : Z) : Z := x mod 2 ^ 16.

(** The test the scheduler writes for each of its deadlines,
    [(long)(deadline - timeNow) < 0], both operands [unsigned long]. *)
Definition due (deadline timeNow : Z) : bool :=
  to_long (wrap32 (deadline - timeNow)) <? 0.

(** The two's complement reading of a 32-bit pattern, from its sign bit: the
    value the claim about the deadline test speaks of. *)
Definition signed32 (x : Z) : Z :=
  if Z.testbit x 31 then x - 2 ^ 32 else x.

(** ** The board *)

(** [Digiwire_Plus_Pins.h] is not among the sources.  The pin names the sketch
    takes from it are kept as names; they are taken to be six different
    pins. *)
Inductive pin := P0 | P2 | P3 | P4 | P5 | LED_BUILTIN.

#[global] Instance pin_eq_dec : EqDecision pin.
Proof. solve_decision. Defined.

#[global] Instance pin_inhabited : Inhabited pin := populate P0.

Definition LOW : Z := 0.
Definition HIGH : Z := 1.

(** The C operator [!] on an integer. *)
Definition lnot (x : Z) : Z := if x =? 0 then 1 else 0.

(** What the sketch does to the outside world, in the order it does it. *)
Inductive event :=
| EPinMode (p : pin)                 (* pinMode(p, OUTPUT) *)
| EWrite (p : pin) (level : Z)       (* digitalWrite(p, level) *)
| ETone (p : pin) (freq : Z)         (* tone(p, freq) *)
| ENoTone (p : pin)                  (* noTone(p) *)
| EDelay (ms : Z)                    (* delay(ms) *)
| EAdcRef                            (* analogReference(DEFAULT) *)
| EDtmfBegin                         (* DTMF.begin() *)
| ESleep.                            (* set_sleep_mode(SLEEP_MODE_IDLE); sleep_mode() *)

(** ** Constants of the sketch *)

Definition tonePin : pin := P0.
Definition PTT : pin := P4.
Definition dtmfPin : pin := P5.

Definition relayPin : list pin := [P2; P3].
Definition onState : list Z := [LOW; LOW].
Definition numRelays : nat := length relayPin.

Definition toneFreq : Z := 800.
Definition cspeed : Z := 2.
Definition mspeed : Z := 1.

Definition CMD_PERIOD : Z := 60000.
Definition DTMF_PERIOD : Z := 100.
Definition RELAY_PERIOD : Z := 300000.
Definition ID_PERIOD : Z := 30000.

Definition ADC_INTERNAL1V1 : Z := 13.

(** Character codes the sketch names. *)
Definition ch_space : Z := 32.   (* ' ' *)
Definition ch_dash : Z := 45.    (* '-' *)
Definition ch_0 : Z := 48.       (* '0' *)
Definition ch_1 : Z := 49.       (* '1' *)
Definition ch_2 : Z := 50.
Definition ch_3 : Z := 51.
Definition ch_4 : Z := 52.
Definition ch_5 : Z := 53.
Definition ch_6 : Z := 54.
Definition ch_query : Z := 63.   (* '?' *)
Definition ch_B : Z := 66.
Definition ch_C : Z := 67.
Definition ch_Z : Z := 90.

(** A string the sketch keeps in flash and walks with a [uint8_t] index: its
    bytes before the terminating NUL, at most 255 of them, so that the index
    reaches the terminator before it wraps round. *)
Record pgm_string := {
  bytes : list Z;
  bytes_fit : (length bytes <=? 255)%nat = true
}.

(** The status messages. *)
Definition toMsg : pgm_string :=
  {| bytes := [67; 84; 79]; bytes_fit := eq_refl |}.                      (* "CTO" *)
Definition onMsg : pgm_string :=
  {| bytes := [68; 79; 87; 78]; bytes_fit := eq_refl |}.                  (* "DOWN" *)
Definition offMsg : pgm_string :=
  {| bytes := [85; 80]; bytes_fit := eq_refl |}.                          (* "UP" *)
Definition perMsg : pgm_string :=
  {| bytes := [79; 70; 70]; bytes_fit := eq_refl |}.                      (* "OFF" *)
Definition idMsg : pgm_string :=
  {| bytes := [78; 52; 66; 82; 70; 47; 82; 67]; bytes_fit := eq_refl |}.  (* "N4BRF/RC" *)
Definition vccMsg : pgm_string :=
  {| bytes := [86; 67; 67; 32]; bytes_fit := eq_refl |}.                  (* "VCC " *)

(** States of the command processor (declared by the sketch, and only ever
    assigned [CMD_IDLE]). *)
Inductive CMD_STATE :=
  CMD_IDLE | CMD_GET_PW | CMD_GET_RELAY | CMD_GET_FUNCTION | CMD_GET_END.

(** ** The state: the board, then the globals of the sketch *)

Record state := mkState {
  clock : Z;                (* milliseconds since reset, not wrapped *)
  adc : Z;                  (* what analogRead(ADC_INTERNAL1V1) returns *)
  pins : pin -> Z;          (* level last written to each pin *)
  trace : list event;       (* everything done so far, oldest first *)
  nextRelay : list Z;       (* unsigned long nextRelay[numRelays] *)
  relayState : list Z;      (* uint8_t relayState[numRelays] *)
  stayOn : list bool;       (* bool stayOn[numRelays] *)
  dtmfKey : Z;              (* char dtmfKey *)
  waitForSpace : bool;
  nextDTMF : Z;             (* unsigned long *)
  nextID : Z;               (* unsigned long *)
  idNeeded : bool;
  nextCmdTimeout : Z;       (* unsigned long *)
  cmdActive : bool;
  cmdBuffer : list Z;       (* char cmdBuffer[10] *)
  cmdPtr : nat;             (* offset of cmdPtr into cmdBuffer *)
  cmdRelay : Z;
  cmdFunction : Z;
  cmdState : CMD_STATE
}.

Definition set_clock (v : Z) (s : state) : state :=
  mkState v (adc s) (pins s) (trace s) (nextRelay s) (relayState s) (stayOn s) (dtmfKey s) (waitForSpace s) (nextDTMF s) (nextID s) (idNeeded s) (nextCmdTimeout s) (cmdActive s) (cmdBuffer s) (cmdPtr s) (cmdRelay s) (cmdFunction s) (cmdState s).
Definition set_pins (v : pin -> Z) (s : state) : state :=
  mkState (clock s) (adc s) v (trace s) (nextRelay s) (relayState s) (stayOn s) (dtmfKey s) (waitForSpace s) (nextDTMF s) (nextID s) (idNeeded s) (nextCmdTimeout s) (cmdActive s) (cmdBuffer s) (cmdPtr s) (cmdRelay s) (cmdFunction s) (cmdState s).
Definition set_trace (v : list event) (s : state) : state :=
  mkState (clock s) (adc s) (pins s) v (nextRelay s) (relayState s) (stayOn s) (dtmfKey s) (waitForSpace s) (nextDTMF s) (nextID s) (idNeeded s) (nextCmdTimeout s) (cmdActive s) (cmdBuffer s) (cmdPtr s) (cmdRelay s) (cmdFunction s) (cmdState s).
Definition set_nextRelay (v : list Z) (s : state) : state :=
  mkState (clock s) (adc s) (pins s) (trace s) v (relayState s) (stayOn s) (dtmfKey s) (waitForSpace s) (nextDTMF s) (nextID s) (idNeeded s) (nextCmdTimeout s) (cmdActive s) (cmdBuffer s) (cmdPtr s) (cmdRelay s) (cmdFunction s) (cmdState s).
Definition set_relayState (v : list Z) (s : state) : state :=
  mkState (clock s) (adc s) (pins s) (trace s) (nextRelay s) v (stayOn s) (dtmfKey s) (waitForSpace s) (nextDTMF s) (nextID s) (idNeeded s) (nextCmdTimeout s) (cmdActive s) (cmdBuffer s) (cmdPtr s) (cmdRelay s) (cmdFunction s) (cmdState s).
Definition set_stayOn (v : list bool) (s : state) : state :=
  mkState (clock s) (adc s) (pins s) (trace s) (nextRelay s) (relayState s) v (dtmfKey s) (waitForSpace s) (nextDTMF s) (nextID s) (idNeeded s) (nextCmdTimeout s) (cmdActive s) (cmdBuffer s) (cmdPtr s) (cmdRelay s) (cmdFunction s) (cmdState s).
Definition set_dtmfKey (v : Z) (s : state) : state :=
  mkState (clock s) (adc s) (pins s) (trace s) (nextRelay s) (relayState s) (stayOn s) v (waitForSpace s) (nextDTMF s) (nextID s) (idNeeded s) (nextCmdTimeout s) (cmdActive s) (cmdBuffer s) (cmdPtr s) (cmdRelay s) (cmdFunction s) (cmdState s).
Definition set_waitForSpace (v : bool) (s : state) : state :=
  mkState (clock s) (adc s) (pins s) (trace s) (nextRelay s) (relayState s) (stayOn s) (dtmfKey s) v (nextDTMF s) (nextID s) (idNeeded s) (nextCmdTimeout s) (cmdActive s) (cmdBuffer s) (cmdPtr s) (cmdRelay s) (cmdFunction s) (cmdState s).
Definition set_nextDTMF (v : Z) (s : state) : state :=
  mkState (clock s) (adc s) (pins s) (trace s) (nextRelay s) (relayState s) (stayOn s) (dtmfKey s) (waitForSpace s) v (nextID s) (idNeeded s) (nextCmdTimeout s) (cmdActive s) (cmdBuffer s) (cmdPtr s) (cmdRelay s) (cmdFunction s) (cmdState s).
Definition set_nextID (v : Z) (s : state) : state :=
  mkState (clock s) (adc s) (pins s) (trace s) (nextRelay s) (relayState s) (stayOn s) (dtmfKey s) (waitForSpace s) (nextDTMF s) v (idNeeded s) (nextCmdTimeout s) (cmdActive s) (cmdBuffer s) (cmdPtr s) (cmdRelay s) (cmdFunction s) (cmdState s).
Definition set_idNeeded (v : bool) (s : state) : state :=
  mkState (clock s) (adc s) (pins s) (trace s) (nextRelay s) (relayState s) (stayOn s) (dtmfKey s) (waitForSpace s) (nextDTMF s) (nextID s) v (nextCmdTimeout s) (cmdActive s) (cmdBuffer s) (cmdPtr s) (cmdRelay s) (cmdFunction s) (cmdState s).
Definition set_nextCmdTimeout (v : Z) (s : state) : state :=
  mkState (clock s) (adc s) (pins s) (trace s) (nextRelay s) (relayState s) (stayOn s) (dtmfKey s) (waitForSpace s) (nextDTMF s) (nextID s) (idNeeded s) v (cmdActive s) (cmdBuffer s) (cmdPtr s) (cmdRelay s) (cmdFunction s) (cmdState s).
Definition set_cmdActive (v : bool) (s : state) : state :=
  mkState (clock s) (adc s) (pins s) (trace s) (nextRelay s) (relayState s) (stayOn s) (dtmfKey s) (waitForSpace s) (nextDTMF s) (nextID s) (idNeeded s) (nextCmdTimeout s) v (cmdBuffer s) (cmdPtr s) (cmdRelay s) (cmdFunction s) (cmdState s).
Definition set_cmdBuffer (v : list Z) (s : state) : state :=
  mkState (clock s) (adc s) (pins s) (trace s) (nextRelay s) (relayState s) (stayOn s) (dtmfKey s) (waitForSpace s) (nextDTMF s) (nextID s) (idNeeded s) (nextCmdTimeout s) (cmdActive s) v (cmdPtr s) (cmdRelay s) (cmdFunction s) (cmdState s).
Definition set_cmdPtr (v : nat) (s : state) : state :=
  mkState (clock s) (adc s) (pins s) (trace s) (nextRelay s) (relayState s) (stayOn s) (dtmfKey s) (waitForSpace s) (nextDTMF s) (nextID s) (idNeeded s) (nextCmdTimeout s) (cmdActive s) (cmdBuffer s) v (cmdRelay s) (cmdFunction s) (cmdState s).
Definition set_cmdRelay (v : Z) (s : state) : state :=
  mkState (clock s) (adc s) (pins s) (trace s) (nextRelay s) (relayState s) (stayOn s) (dtmfKey s) (waitForSpace s) (nextDTMF s) (nextID s) (idNeeded s) (nextCmdTimeout s) (cmdActive s) (cmdBuffer s) (cmdPtr s) v (cmdFunction s) (cmdState s).
Definition set_cmdFunction (v : Z) (s : state) : state :=
  mkState (clock s) (adc s) (pins s) (trace s) (nextRelay s) (relayState s) (stayOn s) (dtmfKey s) (waitForSpace s) (nextDTMF s) (nextID s) (idNeeded s) (nextCmdTimeout s) (cmdActive s) (cmdBuffer s) (cmdPtr s) (cmdRelay s) v (cmdState s).
Definition set_cmdState (v : CMD_STATE) (s : state) : state :=
  mkState (clock s) (adc s) (pins s) (trace s) (nextRelay s) (relayState s) (stayOn s) (dtmfKey s) (waitForSpace s) (nextDTMF s) (nextID s) (idNeeded s) (nextCmdTimeout s) (cmdActive s) (cmdBuffer s) (cmdPtr s) (cmdRelay s) (cmdFunction s) v.

(** Statements in sequence. *)
Definition seq (f g : state -> state) : state -> state := fun s => g (f s).
Declare Scope sketch_scope.
Delimit Scope sketch_scope with sketch.
Notation "f ;; g" := (seq f g) (at level 100, g at level 200, right associativity) : sketch_scope.
Open Scope sketch_scope.

(** The body of a [for] loop whose counter runs over [0 .. n-1]. *)
Fixpoint for_upto (n : nat) (body : nat -> state -> state) (s : state) : state :=
  match n with
  | O => s
  | S n' => body n' (for_upto n' body s)
  end.

(** ** The Arduino calls the sketch makes *)

Definition emit (e : event) (s : state) : state := set_trace (trace s ++ [e]) s.

(** [millis()]: the low 32 bits of the time since reset. *)
Definition millis (s : state) : Z := wrap32 (clock s).

(** [delay(ms)] is the only call that takes time in this model: the clock
    stands still during everything else. *)
Definition delay (ms : Z) : state -> state :=
  emit (EDelay ms) ;; (fun s => set_clock (clock s + ms) s).

Definition pinMode_OUTPUT (p : pin) : state -> state := emit (EPinMode p).

Definition digitalWrite (p : pin) (level : Z) : state -> state :=
  emit (EWrite p level) ;; (fun s => set_pins (<[p := level]> (pins s)) s).

Definition tone (p : pin) (freq : Z) : state -> state := emit (ETone p freq).
Definition noTone (p : pin) : state -> state := emit (ENoTone p).

(** [analogRead(ADC_INTERNAL1V1)]: the reading is the environment's. *)
Definition analogRead (s : state) : Z := adc s.

(** ** [cwtable.h] *)

(** [cwtable.h] is not among the sources.  What the sketch takes from it is a
    parameter: the three element codes [DIT], [DAH] and [WB] (the [case] labels
    of [sendElements]), the character table [chtable] (a C string: its bytes
    before the terminating NUL, each in 1..255, fewer than 256 of them since
    the sketch indexes it with an [unsigned char]) and the element table
    [cwtable] (two bytes for each character of [chtable]). *)
Class cwtable_h := {
  DIT : Z;
  DAH : Z;
  WB : Z;
  chtable : list Z;
  cwtable : list Z
}.

(** [pgm_read_byte(&table[k])]; past the end of the table it reads 0 here. *)
Definition pgm_read_byte (table : list Z) (k : Z) : Z :=
  default 0 (table !! Z.to_nat k).

(** A table to run the sketch on, with the usual Morse patterns of the
    characters the status messages use: elements are packed first element in
    the two high bits, [DIT] = 1, [DAH] = 2, [WB] = 3, 0 fills. *)
Definition sample_cwtable_h : cwtable_h := {|
  DIT := 1;
  DAH := 2;
  WB := 3;
  (*          ' ' '-' '?' '/' '1' '2' '4' 'B' 'C' 'D' 'F' 'N' 'O' 'P' 'R' 'T' 'U' 'V' 'W' *)
  chtable := [32; 45; 63; 47; 49; 50; 52; 66; 67; 68; 70; 78; 79; 80; 82; 84; 85; 86; 87];
  cwtable := [192; 0;   0; 0;   90; 80;   150; 64;   106; 128;   90; 128;   85; 128;
              149; 0;   153; 0;   148; 0;   89; 0;   144; 0;   168; 0;   105; 0;
              100; 0;   128; 0;   88; 0;   86; 0;   104; 0]
|}.

(** ** The sketch *)

Section Sketch.
Context {tables : cwtable_h}.

(** Assignments to one element of a global array. *)
Definition assign_nextRelay (i : nat) (v : Z) (s : state) : state :=
  set_nextRelay (<[i := v]> (nextRelay s)) s.
Definition assign_relayState (i : nat) (v : Z) (s : state) : state :=
  set_relayState (<[i := v]> (relayState s)) s.
Definition assign_stayOn (i : nat) (v : bool) (s : state) : state :=
  set_stayOn (<[i := v]> (stayOn s)) s.

(** The globals as the C start-up code leaves them, on a board whose clock
    reads [t0] and whose ADC reads [a]. *)
Definition power_on (t0 a : Z) : state := {|
  clock := t0; adc := a; pins := fun _ => LOW; trace := [];
  nextRelay := [0; 0]; relayState := [0; 0]; stayOn := [false; false];
  dtmfKey := 0; waitForSpace := false; nextDTMF := 0;
  nextID := 0; idNeeded := false;
  nextCmdTimeout := 0; cmdActive := false;
  cmdBuffer := repeat 0 10; cmdPtr := 0%nat; cmdRelay := 0; cmdFunction := 0;
  cmdState := CMD_IDLE
|}.

Definition setup : state -> state :=
  pinMode_OUTPUT tonePin ;;
  pinMode_OUTPUT PTT ;;
  pinMode_OUTPUT LED_BUILTIN ;;
  digitalWrite tonePin LOW ;;
  digitalWrite PTT LOW ;;
  digitalWrite LED_BUILTIN LOW ;;
  for_upto numRelays (fun i =>
    pinMode_OUTPUT (relayPin !!! i) ;;
    digitalWrite (relayPin !!! i) (lnot (onState !!! i)) ;;
    assign_relayState i (lnot (onState !!! i)) ;;
    assign_nextRelay i 0 ;;
    assign_stayOn i false) ;;
  emit EDtmfBegin ;;
  (fun s => set_cmdBuffer (<[0%nat := 0]> (cmdBuffer s)) s) ;;
  set_cmdPtr 0%nat ;;
  set_cmdState CMD_IDLE ;;
  set_cmdRelay 0 ;;
  set_cmdFunction 0 ;;
  (fun s => set_nextID (millis s) s) ;;
  set_idNeeded true.

(** [checkDTMF]: [key] is what [DTMF.procSample()] returns after
    [DTMF.getSample()], 0 when no tone is heard. *)
Definition checkDTMF (key : Z) (s : state) : bool * state :=
  if waitForSpace s then
    if key =? 0 then
      let s := set_waitForSpace false s in
      if negb (dtmfKey s =? 0) then (true, s) else (false, s)
    else (false, s)
  else
    if negb (key =? 0) then
      (false, set_waitForSpace true (set_dtmfKey key s))
    else (false, s).

Definition pttDown : state -> state :=
  digitalWrite PTT HIGH ;;
  delay 400 ;;
  set_idNeeded true ;;
  (fun s => set_nextID (wrap32 (millis s + ID_PERIOD)) s).

Definition pttUp : state -> state :=
  digitalWrite PTT LOW.

Definition dah : state -> state :=
  tone tonePin toneFreq ;;
  digitalWrite LED_BUILTIN HIGH ;;
  delay (385 / cspeed) ;;
  noTone tonePin ;;
  digitalWrite LED_BUILTIN LOW ;;
  delay (90 / cspeed).

Definition dit : state -> state :=
  tone tonePin toneFreq ;;
  digitalWrite LED_BUILTIN HIGH ;;
  delay (125 / cspeed) ;;
  noTone tonePin ;;
  digitalWrite LED_BUILTIN LOW ;;
  delay (100 / cspeed).

Definition wordBreak : state -> state :=
  noTone tonePin ;;
  delay (850 / cspeed).

Definition CharBreak : state -> state :=
  noTone tonePin ;;
  delay (165 / cspeed).

(** The [switch] of [sendElements]. *)
Definition sendElement (j : Z) : state -> state :=
  if j =? DIT then dit
  else if j =? DAH then dah
  else if j =? WB then wordBreak
  else id.

(** The loop of [sendElements], [n] iterations left. *)
Fixpoint sendElements_loop (n : nat) (bits : Z) : state -> state :=
  match n with
  | O => id
  | S n' =>
      let j := Z.shiftr (Z.land bits 192) 6 in
      let bits := to_uchar (Z.shiftl bits 2) in
      sendElement j ;;
      (if bits =? 0 then id else sendElements_loop n' bits)
  end.

Definition sendElements (ele : Z) : state -> state :=
  sendElements_loop 4 ele.

(** The search loop of [sendChar] from offset [k] on, [table] being what is
    left of [chtable] from there: the offset and the byte it stops at. *)
Fixpoint find_char (c : Z) (table : list Z) (k : Z) : Z * Z :=
  match table with
  | [] => (k, 0)
  | m :: rest =>
      if m =? 0 then (k, 0)
      else if c =? m then (k, m)
      else find_char c rest (to_uchar (k + 1))
  end.

Definition sendChar (c : Z) : state -> state :=
  let (k, m) := find_char c chtable 0 in
  (if m =? ch_dash then CharBreak
   else if negb (m =? 0) then
     let k := to_uchar (Z.shiftl k 1) in
     sendElements (pgm_read_byte cwtable k) ;;
     sendElements (pgm_read_byte cwtable (k + 1))
   else id) ;;
  (if negb (c =? ch_space) && negb (c =? ch_dash) then CharBreak else id).

(** The [for] loop of [SendMorse] from index [i] on.  [i] is a [uint8_t]: it
    wraps after 255.  [n] counts the passes left out of the 256 values [i]
    can take: once they are used up the index is back where it started and
    the loop of the sketch never ends.  [SendMorse] takes a [pgm_string], in
    which a zero byte is read before that (see [SendMorse_loop_ends]). *)
Fixpoint SendMorse_loop (n : nat) (message : list Z) (i : Z) : state -> state :=
  match n with
  | O => id
  | S n' =>
      let j := to_char (pgm_read_byte message i) in
      if j =? 0 then id
      else
        let j := if ch_Z <? j then to_char (j - ch_space) else j in
        sendChar j ;;
        SendMorse_loop n' message (to_uchar (i + 1))
  end.

Definition SendMorse (message : pgm_string) (prefix : Z) : state -> state :=
  pttDown ;;
  (if negb (prefix =? 0) then sendChar prefix ;; sendChar ch_space else id) ;;
  SendMorse_loop 256 (bytes message) 0 ;;
  pttUp.

Definition relayOff (r : nat) : state -> state :=
  digitalWrite (relayPin !!! r) (lnot (onState !!! r)) ;;
  SendMorse offMsg (to_char (Z.of_nat r + ch_1)) ;;
  assign_relayState r (lnot (onState !!! r)).

Definition relayOn (r : nat) (p : bool) : state -> state :=
  digitalWrite (relayPin !!! r) (onState !!! r) ;;
  (if p then SendMorse perMsg (to_char (Z.of_nat r + ch_1))
   else SendMorse onMsg (to_char (Z.of_nat r + ch_1))) ;;
  assign_relayState r (onState !!! r).

(** [readVcc]: the quotient is C's, and taken as 0 where C leaves it
    undefined (a reading of 0). *)
Definition readVcc (s : state) : Z * state :=
  let s := (emit EAdcRef ;; delay 100) s in
  let y := analogRead s in
  (to_uint16 (Z.quot 11830 (analogRead s)), s).

Definition sendVcc (s : state) : state :=
  let (vcc, s) := readVcc s in
  (SendMorse vccMsg 0 ;;
   pttDown ;;
   sendChar (to_char (vcc / 10 + ch_0)) ;;
   sendChar (to_char (vcc mod 10 + ch_0)) ;;
   pttUp) s.

(** The [switch] of [processKey]. *)
Definition processKey_switch (s : state) : state :=
  let key := dtmfKey s in
  if key =? ch_1 then relayOff 0 s
  else if key =? ch_2 then
    (relayOn 0 false ;;
     assign_stayOn 0 false ;;
     (fun s => assign_nextRelay 0 (wrap32 (millis s + RELAY_PERIOD)) s)) s
  else if key =? ch_3 then
    (relayOn 0 true ;;
     assign_stayOn 0 true) s
  else if key =? ch_4 then relayOff 1 s
  else if key =? ch_5 then
    (relayOn 1 false ;;
     assign_stayOn 1 false ;;
     (fun s => assign_nextRelay 1 (wrap32 (millis s + RELAY_PERIOD)) s)) s
  else if key =? ch_6 then
    (relayOn 1 true ;;
     assign_stayOn 1 true) s
  else if key =? ch_B then sendVcc s
  else
    (pttDown ;;
     (fun s => sendChar (dtmfKey s) s) ;;
     sendChar ch_query ;;
     pttUp) s.

Definition processKey : state -> state :=
  (fun s =>
     if negb (dtmfKey s =? 0) then (delay 500 ;; processKey_switch) s
     else s) ;;
  set_dtmfKey 0.

(** The four checks of [loop], in its order; [timeNow] is the [millis()] read
    at the top of [loop]. *)
Definition loop_dtmf (timeNow key : Z) (s : state) : state :=
  if due (nextDTMF s) timeNow then
    let (accepted, s) := checkDTMF key s in
    let s := if accepted then processKey s else s in
    set_nextDTMF (wrap32 (timeNow + DTMF_PERIOD)) s
  else s.

Definition loop_cmd (timeNow : Z) (s : state) : state :=
  if cmdActive s then
    if due (nextCmdTimeout s) timeNow then
      (SendMorse toMsg 0 ;; set_cmdActive false) s
    else s
  else s.

Definition loop_id (timeNow : Z) (s : state) : state :=
  if due (nextID s) timeNow then
    let s := if idNeeded s then (SendMorse idMsg 0 ;; set_idNeeded false) s else s in
    set_nextID (wrap32 (timeNow + ID_PERIOD)) s
  else s.

Definition loop_relay (timeNow : Z) (i : nat) (s : state) : state :=
  if ((relayState s !!! i) =? (onState !!! i)) && negb (stayOn s !!! i) then
    if due (nextRelay s !!! i) timeNow then relayOff i s else s
  else s.

(** One pass of [loop]; [key] is what the decoder answers if it is asked. *)
Definition loop (key : Z) (s : state) : state :=
  let timeNow := millis s in
  (loop_dtmf timeNow key ;;
   loop_cmd timeNow ;;
   loop_id timeNow ;;
   for_upto numRelays (loop_relay timeNow) ;;
   emit ESleep) s.

(** ** Running the sketch *)

(** Time that passes with the processor asleep between two passes. *)
Definition elapse (dt : Z) (s : state) : state := set_clock (clock s + dt) s.

(** A scheduler tick: [dt] milliseconds go by, then [loop] runs once with the
    decoder ready to answer [key]. *)
Definition tick (i : Z * Z) (s : state) : state :=
  loop (snd i) (elapse (fst i) s).

Fixpoint run (inputs : list (Z * Z)) (s : state) : state :=
  match inputs with
  | [] => s
  | i :: rest => run rest (tick i s)
  end.

(** Whether [loop], started in [s], gets an accepted key from [checkDTMF]. *)
Definition accepts (key : Z) (s : state) : bool :=
  due (nextDTMF s) (millis s) && fst (checkDTMF key s).

(** No key is accepted in any tick of the run. *)
Fixpoint quiet (inputs : list (Z * Z)) (s : state) : bool :=
  match inputs with
  | [] => true
  | i :: rest => negb (accepts (snd i) (elapse (fst i) s)) && quiet rest (tick i s)
  end.

(** A relay reads on when its recorded state is its on level. *)
Definition relay_is_on (r : nat) (s : state) : bool :=
  (relayState s !!! r) =? (onState !!! r).

End Sketch.

(** ** What the statements below are written with *)

(** The three relay arrays have the [numRelays] elements they are declared
    with. *)
Definition arrays_ok (s : state) : Prop :=
  length (nextRelay s) = numRelays /\
  length (relayState s) = numRelays /\
  length (stayOn s) = numRelays.

(** [s'] differs from [s] at most in what a transmission touches: the clock,
    the trace, the pins other than the relay pins, [idNeeded] and [nextID]. *)
Definition tx_frame (s s' : state) : Prop :=
  adc s' = adc s /\
  pins s' P2 = pins s P2 /\ pins s' P3 = pins s P3 /\
  nextRelay s' = nextRelay s /\ relayState s' = relayState s /\
  stayOn s' = stayOn s /\
  dtmfKey s' = dtmfKey s /\ waitForSpace s' = waitForSpace s /\
  nextDTMF s' = nextDTMF s /\
  nextCmdTimeout s' = nextCmdTimeout s /\ cmdActive s' = cmdActive s.

Definition transmits (f : state -> state) : Prop := forall s, tx_frame s (f s).

(** [s'] has the relay arrays and the relay pins of [s]. *)
Definition relays_kept (s s' : state) : Prop :=
  nextRelay s' = nextRelay s /\ relayState s' = relayState s /\
  stayOn s' = stayOn s /\
  pins s' P2 = pins s P2 /\ pins s' P3 = pins s P3.

(** The condition under which the auto-off check of [loop] calls [relayOff]
    for relay [r]. *)
Definition expires (timeNow : Z) (r : nat) (s : state) : bool :=
  relay_is_on r s && negb (stayOn s !!! r) && due (nextRelay s !!! r) timeNow.

(** The keys of [processKey] that switch relay [r] on, for the relay period
    and until switched off. *)
Definition timed_key (r : nat) : Z := match r with O => ch_2 | _ => ch_5 end.
Definition hold_key (r : nat) : Z := match r with O => ch_3 | _ => ch_6 end.

(** The keys [processKey] has a [case] for. *)
Definition mapped_key (key : Z) : bool :=
  (key =? ch_1) || (key =? ch_2) || (key =? ch_3) || (key =? ch_4) ||
  (key =? ch_5) || (key =? ch_6) || (key =? ch_B).

(** What the claim about [SendMorse] says is done to a message character:
    0x20 is taken off a code above 'Z', any other code is left alone. *)
Definition fold_case (j : Z) : Z := if 90 <? j then j - 32 else j.

Section Words.
Context {tables : cwtable_h}.

(** [checkDTMF] once per decoder sample: what it returned each time. *)
Fixpoint checkDTMF_run (keys : list Z) (s : state) : list bool * state :=
  match keys with
  | [] => ([], s)
  | key :: rest =>
      let (b, s1) := checkDTMF key s in
      let (bs, s2) := checkDTMF_run rest s1 in
      (b :: bs, s2)
  end.

(** Whether the search of [sendChar] finds [c] in [chtable]. *)
Definition in_chtable (c : Z) : bool := negb (snd (find_char c chtable 0) =? 0).

(** The element bytes [sendChar] sends for [c]. *)
Definition char_elements (c : Z) : state -> state :=
  let k := to_uchar (Z.shiftl (fst (find_char c chtable 0)) 1) in
  sendElements (pgm_read_byte cwtable k) ;;
  sendElements (pgm_read_byte cwtable (k + 1)).

(** [sendChar] on each character of a list, in order. *)
Definition sendChars (cs : list Z) (s : state) : state :=
  fold_left (fun st c => sendChar c st) cs s.

(** A board after [setup], to run the sketch on. *)
Definition ready : state := setup (power_on 0 512).

End Words.

(** ** Words for the station-ID statements *)

(** An event that keys the transmitter: [digitalWrite(PTT, HIGH)]. *)
Definition ptt_keyed (e : event) : bool :=
  match e with
  | EWrite p level => bool_decide (p = PTT) && (level =? HIGH)
  | _ => false
  end.

(** The events of Morse elements and gaps: the tone switched on or off on
    the tone pin, the LED written, a delay. *)
Definition morse_event (e : event) : bool :=
  match e with
  | ETone p _ => bool_decide (p = tonePin)
  | ENoTone p => bool_decide (p = tonePin)
  | EWrite p _ => bool_decide (p = LED_BUILTIN)
  | EDelay _ => true
  | _ => false
  end.

(** [f] adds Morse events to the trace and nothing else, and leaves the
    keying of the transmitter as it is: the PTT pin, [idNeeded], [nextID]. *)
Definition sends_morse (f : state -> state) : Prop :=
  forall s,
    (exists l, trace (f s) = trace s ++ l /\ forallb morse_event l = true) /\
    pins (f s) PTT = pins s PTT /\
    idNeeded (f s) = idNeeded s /\ nextID (f s) = nextID s.

Section Keying.
Context {tables : cwtable_h}.

(** Whether a pass of [loop] started in [s] keys the transmitter for
    anything but the station ID: a key is accepted, the command timeout
    fires, or the auto-off check of a relay fires. *)
Definition keys_ptt (key : Z) (s : state) : bool :=
  accepts key s
  || (cmdActive s && due (nextCmdTimeout s) (millis s))
  || existsb (fun i => expires (millis s) i s) (List.seq 0 numRelays).

(** No tick of the run keys the transmitter for anything but the ID. *)
Fixpoint ptt_free (inputs : list (Z * Z)) (s : state) : bool :=
  match inputs with
  | [] => true
  | i :: rest => negb (keys_ptt (snd i) (elapse (fst i) s)) && ptt_free rest (tick i s)
  end.

End Keying.

(** ** Further words for the statements *)

(** The key of [processKey] that switches relay [r] off. *)
Definition off_key (r : nat) : Z := match r with O => ch_1 | _ => ch_4 end.

(** Element codes packed into a byte the way [sendElements] takes them out:
    two bits each, the first element in the two high bits, [n] fields left
    in the byte, 0 in the fields that are not used. *)
Fixpoint pack_elements_at (n : nat) (es : list Z) : Z :=
  match n, es with
  | S n', e :: rest => Z.lor (Z.shiftl e (2 * Z.of_nat n')) (pack_elements_at n' rest)
  | _, _ => 0
  end.

Definition pack_elements (es : list Z) : Z := pack_elements_at 4 es.

(** [s'] has the decoder and command globals of [s], and relay arrays as
    long as those of [s]. *)
Definition ctl_kept (s s' : state) : Prop :=
  adc s' = adc s /\
  dtmfKey s' = dtmfKey s /\ waitForSpace s' = waitForSpace s /\
  nextDTMF s' = nextDTMF s /\
  nextCmdTimeout s' = nextCmdTimeout s /\ cmdActive s' = cmdActive s /\
  length (nextRelay s') = length (nextRelay s) /\
  length (relayState s') = length (relayState s) /\
  length (stayOn s') = length (stayOn s).

Definition keeps_ctl (f : state -> state) : Prop := forall s, ctl_kept s (f s).

(** What holds of the globals whenever [loop] is entered: the relay arrays
    are whole, no command session is open, and a key that awaits its release
    is a key. *)
Definition sketch_inv (s : state) : Prop :=
  arrays_ok s /\ cmdActive s = false /\
  (waitForSpace s = true -> dtmfKey s <> 0).

Section Reach.
Context {tables : cwtable_h}.

(** The states between two passes of [loop], on a board that was powered
    on, ran [setup] and has gone through some ticks. *)
Definition reachable (s : state) : Prop :=
  exists t0 a inputs, s = run inputs (setup (power_on t0 a)).

(** Every tick of the run starts with the clock in [lo .. hi]. *)
Fixpoint ticks_between (lo hi : Z) (inputs : list (Z * Z)) (s : state) : bool :=
  match inputs with
  | [] => true
  | i :: rest =>
      (lo <=? clock s + fst i) && (clock s + fst i <=? hi) &&
      ticks_between lo hi rest (tick i s)
  end.

End Reach.

(** * Properties *)

Section Facts.
Context {tables : cwtable_h}.

Lemma wrap32_range x : 0 <= wrap32 x < 2 ^ 32.
Proof. unfold wrap32. apply Z.mod_pos_bound. lia. Qed.

Lemma wrap32_idem x : wrap32 (wrap32 x) = wrap32 x.
Proof. unfold wrap32. apply Z.mod_mod. lia. Qed.

Lemma wrap32_small x : 0 <= x < 2 ^ 32 -> wrap32 x = x.
Proof. intros. unfold wrap32. apply Z.mod_small. lia. Qed.

Lemma testbit31 y : 0 <= y < 2 ^ 32 -> Z.testbit y 31 = (2 ^ 31 <=? y).
Proof.
  intros Hy. rewrite Z.testbit_odd, Z.shiftr_div_pow2 by lia.
  destruct (Z.leb_spec (2 ^ 31) y) as [Hge | Hlt].
  - replace (y / 2 ^ 31) with 1; [reflexivity |].
    apply Z.div_unique with (r := y - 2 ^ 31); lia.
  - rewrite Z.div_small by lia. reflexivity.
Qed.

Lemma due_sign d t : due d t = (signed32 (wrap32 (d - t)) <? 0).
Proof.
  unfold due, to_long, signed32. rewrite wrap32_idem.
  pose proof (wrap32_range (d - t)) as Hr.
  rewrite testbit31 by exact Hr.
  destruct (Z.ltb_spec (wrap32 (d - t)) (2 ^ 31)), (Z.leb_spec (2 ^ 31) (wrap32 (d - t))); try lia; reflexivity.
Qed.

Lemma due_true_iff d t : due d t = true <-> 2 ^ 31 <= wrap32 (d - t).
Proof.
  unfold due, to_long. rewrite wrap32_idem.
  pose proof (wrap32_range (d - t)) as Hr.
  destruct (Z.ltb_spec (wrap32 (d - t)) (2 ^ 31)); rewrite Z.ltb_lt; lia.
Qed.



Lemma tx_frame_refl s : tx_frame s s.
Proof. unfold tx_frame. tauto. Qed.

Lemma tx_frame_trans s1 s2 s3 : tx_frame s1 s2 -> tx_frame s2 s3 -> tx_frame s1 s3.
Proof. unfold tx_frame. intuition congruence. Qed.

Lemma transmits_id : transmits id.
Proof. intros s. apply tx_frame_refl. Qed.

Lemma transmits_seq f g : transmits f -> transmits g -> transmits (f ;; g).
Proof. intros Hf Hg s. unfold seq. eapply tx_frame_trans; [apply Hf | apply Hg]. Qed.

Lemma transmits_if (b : bool) f g : transmits f -> transmits g -> transmits (if b then f else g).
Proof. destruct b; auto. Qed.

Ltac tx_prim := intros s; unfold tx_frame; cbn; repeat split; reflexivity.

Lemma transmits_emit e : transmits (emit e).
Proof. tx_prim. Qed.

Lemma transmits_delay ms : transmits (delay ms).
Proof. tx_prim. Qed.

Lemma transmits_tone p f : transmits (tone p f).
Proof. tx_prim. Qed.

Lemma transmits_noTone p : transmits (noTone p).
Proof. tx_prim. Qed.

Lemma transmits_write_PTT v : transmits (digitalWrite PTT v).
Proof. tx_prim. Qed.

Lemma transmits_write_LED v : transmits (digitalWrite LED_BUILTIN v).
Proof. tx_prim. Qed.

Lemma transmits_set_idNeeded b : transmits (set_idNeeded b).
Proof. tx_prim. Qed.

Lemma transmits_set_nextID (v : state -> Z) : transmits (fun s => set_nextID (v s) s).
Proof. tx_prim. Qed.

Create HintDb tx discriminated.
#[local] Hint Resolve transmits_id transmits_seq transmits_if transmits_emit transmits_delay
  transmits_tone transmits_noTone transmits_write_PTT transmits_write_LED
  transmits_set_idNeeded transmits_set_nextID : tx.

Lemma transmits_pttDown : transmits pttDown.
Proof. unfold pttDown. auto 10 with tx. Qed.

Lemma transmits_pttUp : transmits pttUp.
Proof. unfold pttUp. auto with tx. Qed.

Lemma transmits_dah : transmits dah.
Proof. unfold dah. auto 10 with tx. Qed.

Lemma transmits_dit : transmits dit.
Proof. unfold dit. auto 10 with tx. Qed.

Lemma transmits_wordBreak : transmits wordBreak.
Proof. unfold wordBreak. auto with tx. Qed.

Lemma transmits_CharBreak : transmits CharBreak.
Proof. unfold CharBreak. auto with tx. Qed.

#[local] Hint Resolve transmits_pttDown transmits_pttUp transmits_dah transmits_dit
  transmits_wordBreak transmits_CharBreak : tx.

Lemma transmits_sendElement j : transmits (sendElement j).
Proof. unfold sendElement. auto 10 with tx. Qed.

#[local] Hint Resolve transmits_sendElement : tx.

Lemma transmits_sendElements_loop n : forall bits, transmits (sendElements_loop n bits).
Proof.
  induction n as [| n IH]; intros bits; simpl; auto with tx.
Qed.

Lemma transmits_sendElements ele : transmits (sendElements ele).
Proof. apply transmits_sendElements_loop. Qed.

#[local] Hint Resolve transmits_sendElements : tx.

Lemma transmits_sendChar c : transmits (sendChar c).
Proof. unfold sendChar. destruct (find_char c chtable 0) as [k m]. auto 10 with tx. Qed.

#[local] Hint Resolve transmits_sendChar : tx.

Lemma transmits_SendMorse_loop n message : forall i,
  transmits (SendMorse_loop n message i).
Proof.
  induction n as [| n IH]; intros i; simpl; auto with tx.
Qed.

#[local] Hint Resolve transmits_SendMorse_loop : tx.

Lemma transmits_SendMorse message prefix : transmits (SendMorse message prefix).
Proof. unfold SendMorse. auto 10 with tx. Qed.


#[local] Hint Resolve transmits_SendMorse : tx.

Lemma tx_frame_relays_kept s s' : tx_frame s s' -> relays_kept s s'.
Proof. unfold tx_frame, relays_kept. tauto. Qed.

Lemma relays_kept_refl s : relays_kept s s.
Proof. unfold relays_kept. tauto. Qed.

Lemma relays_kept_trans s1 s2 s3 :
  relays_kept s1 s2 -> relays_kept s2 s3 -> relays_kept s1 s3.
Proof. unfold relays_kept. intuition congruence. Qed.

Lemma relays_kept_arrays_ok s s' : relays_kept s s' -> arrays_ok s -> arrays_ok s'.
Proof. unfold relays_kept, arrays_ok. intros (-> & -> & -> & _). tauto. Qed.

(** [checkDTMF] touches [dtmfKey] and [waitForSpace] only. *)
Lemma checkDTMF_relays_kept key s : relays_kept s (snd (checkDTMF key s)).
Proof.
  unfold checkDTMF.
  destruct (waitForSpace s), (key =? 0); simpl; try apply relays_kept_refl.
  - destruct (dtmfKey s =? 0); simpl; unfold relays_kept; simpl; tauto.
  - unfold relays_kept; simpl; tauto.
Qed.

Lemma loop_dtmf_quiet t key s :
  due (nextDTMF s) t && fst (checkDTMF key s) = false ->
  relays_kept s (loop_dtmf t key s).
Proof.
  unfold loop_dtmf. intros Hq.
  destruct (due (nextDTMF s) t); [| apply relays_kept_refl].
  pose proof (checkDTMF_relays_kept key s) as Hk.
  destruct (checkDTMF key s) as [b s1]. simpl in *. subst b.
  unfold relays_kept in *. simpl. exact Hk.
Qed.

Lemma loop_cmd_relays_kept t s : relays_kept s (loop_cmd t s).
Proof.
  unfold loop_cmd.
  destruct (cmdActive s); [| apply relays_kept_refl].
  destruct (due (nextCmdTimeout s) t); [| apply relays_kept_refl].
  unfold seq. pose proof (transmits_SendMorse toMsg 0 s) as H.
  apply tx_frame_relays_kept in H. unfold relays_kept in *. simpl. exact H.
Qed.

Lemma loop_id_relays_kept t s : relays_kept s (loop_id t s).
Proof.
  unfold loop_id.
  destruct (due (nextID s) t); [| apply relays_kept_refl].
  destruct (idNeeded s).
  - unfold seq. pose proof (transmits_SendMorse idMsg 0 s) as H.
    apply tx_frame_relays_kept in H. unfold relays_kept in *. simpl. exact H.
  - unfold relays_kept. simpl. tauto.
Qed.

(** [relayOff r]: the relay arrays afterwards. *)
Lemma relayOff_arrays r s :
  nextRelay (relayOff r s) = nextRelay s /\
  stayOn (relayOff r s) = stayOn s /\
  relayState (relayOff r s) = <[r := lnot (onState !!! r)]> (relayState s).
Proof.
  unfold relayOff, seq, assign_relayState.
  set (s1 := digitalWrite _ _ s).
  pose proof (transmits_SendMorse offMsg (to_char (Z.of_nat r + ch_1)) s1) as H.
  unfold tx_frame in H. destruct H as (_ & _ & _ & Hn & Hr & Hs & _).
  unfold set_relayState. cbn [nextRelay stayOn relayState].
  rewrite Hn, Hr, Hs. subst s1. simpl. tauto.
Qed.

Lemma relayOn_arrays r p s :
  nextRelay (relayOn r p s) = nextRelay s /\
  stayOn (relayOn r p s) = stayOn s /\
  relayState (relayOn r p s) = <[r := onState !!! r]> (relayState s).
Proof.
  unfold relayOn, seq, assign_relayState.
  set (s1 := digitalWrite _ _ s).
  assert (H : tx_frame s1 ((if p then SendMorse perMsg (to_char (Z.of_nat r + ch_1))
                            else SendMorse onMsg (to_char (Z.of_nat r + ch_1))) s1))
    by (destruct p; apply transmits_SendMorse).
  unfold tx_frame in H. destruct H as (_ & _ & _ & Hn & Hr & Hs & _).
  unfold set_relayState. cbn [nextRelay stayOn relayState].
  rewrite Hn, Hr, Hs. subst s1. simpl. tauto.
Qed.

(** The auto-off check for one relay. *)
Lemma loop_relay_expires t i s :
  loop_relay t i s = if expires t i s then relayOff i s else s.
Proof.
  unfold loop_relay, expires, relay_is_on.
  destruct ((relayState s !!! i) =? (onState !!! i)), (stayOn s !!! i),
    (due (nextRelay s !!! i) t); reflexivity.
Qed.

(** The auto-off checks for relays [0 .. n-1]. *)
Lemma relay_pass t n : forall s,
  arrays_ok s -> (n <= numRelays)%nat ->
  let s' := for_upto n (loop_relay t) s in
  stayOn s' = stayOn s /\ nextRelay s' = nextRelay s /\
  length (relayState s') = length (relayState s) /\
  forall r, relayState s' !!! r =
            if (r <? n)%nat && expires t r s then lnot (onState !!! r)
            else relayState s !!! r.
Proof.
  induction n as [| n IH]; intros s Hok Hn; simpl.
  - repeat split; reflexivity.
  - destruct (IH s Hok ltac:(lia)) as (Hs & Hd & Hl & Hr).
    set (s1 := for_upto n (loop_relay t) s) in *.
    assert (Hexp : expires t n s1 = expires t n s).
    { unfold expires, relay_is_on. rewrite Hs, Hd, Hr.
      rewrite Nat.ltb_irrefl. reflexivity. }
    rewrite loop_relay_expires, Hexp.
    destruct (expires t n s) eqn:He.
    + destruct (relayOff_arrays n s1) as (Hn' & Hs' & Hr').
      rewrite Hs', Hn', Hr', length_insert.
      repeat split; try assumption. intros r.
      destruct (decide (r = n)) as [-> | Hne].
      * rewrite list_lookup_total_insert_eq.
        -- replace (n <? S n)%nat with true by (symmetry; apply Nat.ltb_lt; lia).
           rewrite He. reflexivity.
        -- rewrite Hl. destruct Hok as (_ & -> & _). lia.
      * rewrite list_lookup_total_insert_ne by congruence.
        rewrite Hr.
        replace (r <? S n)%nat with (r <? n)%nat; [reflexivity |].
        destruct (Nat.ltb_spec r n), (Nat.ltb_spec r (S n)); try reflexivity; lia.
    + repeat split; try assumption. intros r. rewrite Hr.
      destruct (decide (r = n)) as [-> | Hne].
      * rewrite Nat.ltb_irrefl, He. simpl.
        destruct (n <? S n)%nat; reflexivity.
      * replace (r <? S n)%nat with (r <? n)%nat; [reflexivity |].
        destruct (Nat.ltb_spec r n), (Nat.ltb_spec r (S n)); try reflexivity; lia.
Qed.

Lemma expires_kept t r s s' : relays_kept s s' -> expires t r s' = expires t r s.
Proof.
  unfold relays_kept, expires, relay_is_on. intros (-> & -> & -> & _). reflexivity.
Qed.

Lemma lnot_differs x : (lnot x =? x) = false.
Proof. unfold lnot. destruct (Z.eqb_spec x 0); apply Z.eqb_neq; lia. Qed.

(** What a tick without an accepted key does to the relay arrays. *)
Lemma quiet_tick i s :
  arrays_ok s ->
  accepts (snd i) (elapse (fst i) s) = false ->
  let t := wrap32 (clock s + fst i) in
  let s' := tick i s in
  arrays_ok s' /\ stayOn s' = stayOn s /\ nextRelay s' = nextRelay s /\
  forall r, relayState s' !!! r =
            if (r <? numRelays)%nat && expires t r s then lnot (onState !!! r)
            else relayState s !!! r.
Proof.
  intros Hok Hq t s'. subst s'. unfold tick, loop, seq.
  set (s0 := elapse (fst i) s) in *.
  assert (Ht : millis s0 = t) by reflexivity. rewrite Ht.
  assert (K0 : relays_kept s s0) by (unfold relays_kept; simpl; tauto).
  set (s1 := loop_dtmf t (snd i) s0).
  assert (K1 : relays_kept s0 s1).
  { apply loop_dtmf_quiet. unfold accepts in Hq. rewrite Ht in Hq. exact Hq. }
  set (s2 := loop_cmd t s1).
  pose proof (loop_cmd_relays_kept t s1 : relays_kept s1 s2) as K2.
  set (s3 := loop_id t s2).
  pose proof (loop_id_relays_kept t s2 : relays_kept s2 s3) as K3.
  assert (K : relays_kept s s3) by eauto using relays_kept_trans.
  pose proof (relays_kept_arrays_ok _ _ K Hok) as Hok3.
  destruct (relay_pass t numRelays s3 Hok3 (Nat.le_refl _)) as (Hs & Hn & Hl & Hr).
  set (s4 := for_upto numRelays (loop_relay t) s3) in *.
  pose proof K as (Kn & Kr & Ks & _).
  unfold emit, set_trace, arrays_ok in *. cbn [nextRelay stayOn relayState].
  rewrite Hs, Hn, Hl, Ks, Kn, Kr.
  split; [exact Hok |]. split; [reflexivity |]. split; [reflexivity |].
  intros r. rewrite Hr, Kr.
  rewrite (expires_kept t r s s3 K).
  reflexivity.
Qed.

Lemma run_app a b s : run (a ++ b) s = run b (run a s).
Proof. revert s. induction a as [| i a IH]; intros s; simpl; [reflexivity | apply IH]. Qed.

Lemma quiet_app a b s : quiet (a ++ b) s = quiet a s && quiet b (run a s).
Proof.
  revert s. induction a as [| i a IH]; intros s; simpl; [reflexivity |].
  rewrite IH, andb_assoc. reflexivity.
Qed.

(** Ticks without an accepted key leave [stayOn] and [nextRelay] alone. *)
Lemma quiet_run_kept inputs : forall s,
  arrays_ok s -> quiet inputs s = true ->
  arrays_ok (run inputs s) /\ stayOn (run inputs s) = stayOn s /\
  nextRelay (run inputs s) = nextRelay s.
Proof.
  induction inputs as [| i rest IH]; intros s Hok Hq; simpl in *; [tauto |].
  apply andb_true_iff in Hq as [Ha Hq]. apply negb_true_iff in Ha.
  destruct (quiet_tick i s Hok Ha) as (Hok' & Hs & Hn & _).
  destruct (IH _ Hok' Hq) as (H1 & H2 & H3).
  rewrite H2, H3. tauto.
Qed.

(** A relay that is held stays as it is through such ticks. *)
Lemma held_run r inputs : forall s,
  arrays_ok s -> stayOn s !!! r = true -> quiet inputs s = true ->
  relayState (run inputs s) !!! r = relayState s !!! r.
Proof.
  induction inputs as [| i rest IH]; intros s Hok Hh Hq; simpl in *; [reflexivity |].
  apply andb_true_iff in Hq as [Ha Hq]. apply negb_true_iff in Ha.
  destruct (quiet_tick i s Hok Ha) as (Hok' & Hs & Hn & Hr).
  rewrite IH; [| exact Hok' | rewrite Hs; exact Hh | exact Hq].
  rewrite Hr. unfold expires. rewrite Hh. simpl.
  rewrite andb_false_r, andb_false_r. reflexivity.
Qed.

(** A relay that reads off stays off through such ticks. *)
Lemma off_run r inputs : forall s,
  arrays_ok s -> relay_is_on r s = false -> quiet inputs s = true ->
  relay_is_on r (run inputs s) = false.
Proof.
  induction inputs as [| i rest IH]; intros s Hok Hoff Hq; simpl in *; [exact Hoff |].
  apply andb_true_iff in Hq as [Ha Hq]. apply negb_true_iff in Ha.
  destruct (quiet_tick i s Hok Ha) as (Hok' & Hs & Hn & Hr).
  apply IH; [exact Hok' | | exact Hq].
  unfold relay_is_on in *. rewrite Hr.
  destruct (_ && _); [apply lnot_differs | exact Hoff].
Qed.

(** A tick without an accepted key at which the deadline of an unheld relay
    is due leaves the relay off; so do the ticks after it. *)
Lemma auto_off_run r pre i post s :
  arrays_ok s -> (r < numRelays)%nat ->
  stayOn s !!! r = false ->
  quiet (pre ++ i :: post) s = true ->
  due (nextRelay s !!! r) (wrap32 (clock (run pre s) + fst i)) = true ->
  relay_is_on r (run (pre ++ i :: post) s) = false.
Proof.
  intros Hok Hr Hs Hq Hdue.
  rewrite quiet_app in Hq. apply andb_true_iff in Hq as [Hq1 Hq2].
  simpl in Hq2. apply andb_true_iff in Hq2 as [Ha Hq2]. apply negb_true_iff in Ha.
  rewrite run_app. simpl.
  destruct (quiet_run_kept pre s Hok Hq1) as (Hok1 & Hs1 & Hn1).
  set (s1 := run pre s) in *.
  destruct (quiet_tick i s1 Hok1 Ha) as (Hok2 & _ & _ & Hrs).
  apply off_run; [exact Hok2 | | exact Hq2].
  unfold relay_is_on. rewrite Hrs.
  replace (r <? numRelays)%nat with true by (symmetry; apply Nat.ltb_lt; exact Hr).
  unfold expires. rewrite Hs1, Hn1, Hs, Hdue. simpl. rewrite andb_true_r.
  destruct (relay_is_on r s1) eqn:Hon; [apply lnot_differs | exact Hon].
Qed.

Lemma wrap32_add_l a b : wrap32 (wrap32 a + b) = wrap32 (a + b).
Proof. unfold wrap32. apply Zplus_mod_idemp_l. Qed.

Lemma wrap32_sub a b : wrap32 (wrap32 a - wrap32 b) = wrap32 (a - b).
Proof. unfold wrap32. symmetry. apply Zminus_mod. Qed.

(** A deadline armed at clock [c] for [period] later is due at clock [c + e]
    when [e] is more than [period], as long as the 32-bit difference has not
    changed sign again. *)
Lemma due_after c period e :
  period < e <= period + 2 ^ 31 ->
  due (wrap32 (wrap32 c + period)) (wrap32 (c + e)) = true.
Proof.
  intros He. apply due_true_iff.
  rewrite wrap32_add_l, wrap32_sub.
  replace (c + period - (c + e)) with (period - e + 1 * 2 ^ 32 - 2 ^ 32) by lia.
  unfold wrap32.
  replace (period - e + 1 * 2 ^ 32 - 2 ^ 32) with (period - e + 2 ^ 32 + (-1) * 2 ^ 32) by lia.
  rewrite Z_mod_plus_full, Z.mod_small; lia.
Qed.

(** ... and not due when [e] is at most [period]. *)
Lemma due_not_before c period e :
  period - 2 ^ 31 < e <= period ->
  due (wrap32 (wrap32 c + period)) (wrap32 (c + e)) = false.
Proof.
  intros He. apply not_true_iff_false. rewrite due_true_iff.
  rewrite wrap32_add_l, wrap32_sub.
  replace (c + period - (c + e)) with (period - e) by lia.
  unfold wrap32. rewrite Z.mod_small; lia.
Qed.

(** ** The deadline test *)

(** C1.  For unsigned 32-bit [now] and [deadline], the test [due] that [loop]
    applies to each of its deadlines holds exactly when the wrapped difference
    [deadline - now], read as a signed 32-bit number, is negative.  It is not
    the unsigned comparison of [deadline] with [now]: the two differ, either
    way round, once the counter has wrapped between the two values.  Each of
    the four checks of [loop] (decoder poll, command timeout, station ID,
    auto-off of relay [i]) acts when that signed difference is negative for
    its deadline and leaves the state alone when it is not. *)
Theorem deadlines_use_signed_difference (now deadline key : Z) (i : nat) (s : state) :
  0 <= now < 2 ^ 32 -> 0 <= deadline < 2 ^ 32 ->
  let late d := signed32 (wrap32 (d - now)) < 0 in
  (due deadline now = true <-> late deadline) /\
  (due 5 4294967295 = false /\ (5 <? 4294967295) = true) /\
  (due 4294967295 5 = true /\ (4294967295 <? 5) = false) /\
  (late (nextDTMF s) ->
     nextDTMF (loop_dtmf now key s) = wrap32 (now + DTMF_PERIOD)) /\
  (~ late (nextDTMF s) -> loop_dtmf now key s = s) /\
  (cmdActive s = true -> late (nextCmdTimeout s) ->
     loop_cmd now s = set_cmdActive false (SendMorse toMsg 0 s)) /\
  (~ late (nextCmdTimeout s) -> loop_cmd now s = s) /\
  (late (nextID s) -> nextID (loop_id now s) = wrap32 (now + ID_PERIOD)) /\
  (~ late (nextID s) -> loop_id now s = s) /\
  (relay_is_on i s = true -> stayOn s !!! i = false -> late (nextRelay s !!! i) ->
     loop_relay now i s = relayOff i s) /\
  (~ late (nextRelay s !!! i) -> loop_relay now i s = s).
Proof.
  intros _ _ late.
  assert (Hdue : forall d, due d now = true <-> late d).
  { intros d. subst late. cbv beta. rewrite due_sign. apply Z.ltb_lt. }
  assert (Hnot : forall d, ~ late d -> due d now = false).
  { intros d Hd. apply not_true_iff_false. rewrite Hdue. exact Hd. }
  split; [apply Hdue |].
  split; [split; reflexivity |].
  split; [split; reflexivity |].
  split.
  { intros H. apply Hdue in H. unfold loop_dtmf. rewrite H.
    destruct (checkDTMF key s) as [b s1]. reflexivity. }
  split.
  { intros H. apply Hnot in H. unfold loop_dtmf. rewrite H. reflexivity. }
  split.
  { intros Ha H. apply Hdue in H. unfold loop_cmd. rewrite Ha, H. reflexivity. }
  split.
  { intros H. apply Hnot in H. unfold loop_cmd. rewrite H.
    destruct (cmdActive s); reflexivity. }
  split.
  { intros H. apply Hdue in H. unfold loop_id. rewrite H. reflexivity. }
  split.
  { intros H. apply Hnot in H. unfold loop_id. rewrite H. reflexivity. }
  split.
  { intros Hon Hs H. apply Hdue in H. rewrite loop_relay_expires.
    unfold expires. rewrite Hon, Hs, H. reflexivity. }
  { intros H. apply Hnot in H. rewrite loop_relay_expires.
    unfold expires. rewrite H, andb_false_r. reflexivity. }
Qed.

(** ** The key edge detector *)

Lemma checkDTMF_held k held : forall s,
  waitForSpace s = true -> dtmfKey s = k -> k <> 0 ->
  Forall (fun key => key <> 0) held ->
  let r := checkDTMF_run (held ++ [0]) s in
  fst r = repeat false (length held) ++ [true] /\
  dtmfKey (snd r) = k /\ waitForSpace (snd r) = false.
Proof.
  induction held as [| h held IH]; intros s Hw Hk Hk0 Hheld; simpl.
  - unfold checkDTMF. rewrite Hw. simpl. rewrite Hk.
    destruct (Z.eqb_spec k 0) as [E | _]; [contradiction |]. simpl. tauto.
  - inversion Hheld as [| ? ? Hh Hrest]; subst.
    assert (Hstep : checkDTMF h s = (false, s)).
    { unfold checkDTMF. rewrite Hw.
      destruct (Z.eqb_spec h 0) as [E | _]; [contradiction | reflexivity]. }
    rewrite Hstep.
    specialize (IH s Hw eq_refl Hk0 Hrest). simpl in IH.
    destruct (checkDTMF_run (held ++ [0]) s) as [bs s2]. simpl in *.
    destruct IH as (-> & IH). split; [reflexivity | exact IH].
Qed.

(** C2.  Start [checkDTMF] with no key awaiting release and give it one
    press-then-release cycle: a nonzero sample [k], any number of further
    nonzero samples [held], then a zero sample.  It returns false for every
    nonzero sample and true exactly once, for the zero sample; the key it
    leaves in [dtmfKey] is [k], the first nonzero sample, however long
    [held] is. *)
Theorem checkDTMF_press_release (s : state) (k : Z) (held : list Z) :
  waitForSpace s = false -> k <> 0 ->
  Forall (fun key => key <> 0) held ->
  let r := checkDTMF_run (k :: held ++ [0]) s in
  fst r = repeat false (S (length held)) ++ [true] /\
  dtmfKey (snd r) = k /\ waitForSpace (snd r) = false.
Proof.
  intros Hw Hk Hheld. simpl.
  assert (Hstep : checkDTMF k s = (false, set_waitForSpace true (set_dtmfKey k s))).
  { unfold checkDTMF. rewrite Hw.
    destruct (Z.eqb_spec k 0) as [E | _]; [contradiction | reflexivity]. }
  rewrite Hstep.
  pose proof (checkDTMF_held k held (set_waitForSpace true (set_dtmfKey k s))
                eq_refl eq_refl Hk Hheld) as H. simpl in H.
  destruct (checkDTMF_run (held ++ [0]) _) as [bs s2]. simpl in *.
  destruct H as (-> & H). split; [reflexivity | exact H].
Qed.

(** ** Switching a relay on by key *)

Lemma processKey_nonzero s :
  dtmfKey s <> 0 -> processKey s = set_dtmfKey 0 (processKey_switch (delay 500 s)).
Proof.
  intros Hk. unfold processKey, seq.
  destruct (Z.eqb_spec (dtmfKey s) 0); [contradiction | reflexivity].
Qed.

Lemma switch_timed r s :
  (r < numRelays)%nat -> dtmfKey s = timed_key r ->
  processKey_switch s =
  (relayOn r false ;;
   assign_stayOn r false ;;
   (fun s => assign_nextRelay r (wrap32 (millis s + RELAY_PERIOD)) s)) s.
Proof.
  intros Hr Hk. unfold processKey_switch. rewrite Hk.
  destruct r as [| [| r]]; [reflexivity | reflexivity | unfold numRelays in Hr; simpl in Hr; lia].
Qed.

Lemma switch_hold r s :
  (r < numRelays)%nat -> dtmfKey s = hold_key r ->
  processKey_switch s = (relayOn r true ;; assign_stayOn r true) s.
Proof.
  intros Hr Hk. unfold processKey_switch. rewrite Hk.
  destruct r as [| [| r]]; [reflexivity | reflexivity | unfold numRelays in Hr; simpl in Hr; lia].
Qed.

Lemma timed_key_nonzero r : timed_key r <> 0.
Proof. destruct r; discriminate. Qed.

Lemma hold_key_nonzero r : hold_key r <> 0.
Proof. destruct r; discriminate. Qed.

Lemma relay_is_on_insert r (l : list Z) :
  (r < length l)%nat -> (<[r := onState !!! r]> l !!! r =? onState !!! r) = true.
Proof. intros H. rewrite list_lookup_total_insert_eq by exact H. apply Z.eqb_refl. Qed.

(** The key for "on for the relay period", processed. *)
Lemma processKey_timed r s :
  (r < numRelays)%nat -> arrays_ok s -> dtmfKey s = timed_key r ->
  let s1 := processKey s in
  let on := relayOn r false (delay 500 s) in
  arrays_ok s1 /\
  relay_is_on r s1 = true /\
  stayOn s1 !!! r = false /\
  nextRelay s1 !!! r = wrap32 (millis s1 + RELAY_PERIOD) /\
  clock s1 = clock on /\ trace s1 = trace on /\ pins s1 = pins on.
Proof.
  intros Hr (Hn & Hs & Ho) Hk s1 on. subst s1 on.
  rewrite processKey_nonzero by (rewrite Hk; apply timed_key_nonzero).
  rewrite (switch_timed r) by (exact Hr || exact Hk).
  unfold seq.
  destruct (relayOn_arrays r false (delay 500 s)) as (Hn1 & Hs1 & Hr1).
  unfold arrays_ok, relay_is_on, millis, assign_nextRelay, assign_stayOn,
    set_dtmfKey, set_nextRelay, set_stayOn.
  cbn [nextRelay stayOn relayState clock trace pins].
  rewrite Hn1, Hs1, Hr1. cbn [nextRelay stayOn relayState clock delay].
  rewrite !length_insert.
  split; [change (nextRelay (delay 500 s)) with (nextRelay s);
          change (relayState (delay 500 s)) with (relayState s);
          change (stayOn (delay 500 s)) with (stayOn s); tauto |].
  split; [apply relay_is_on_insert; change (relayState (delay 500 s)) with (relayState s); lia |].
  split; [apply list_lookup_total_insert_eq; change (stayOn (delay 500 s)) with (stayOn s); lia |].
  split; [apply list_lookup_total_insert_eq; change (nextRelay (delay 500 s)) with (nextRelay s); lia |].
  repeat split; reflexivity.
Qed.

(** The key for "on until switched off", processed. *)
Lemma processKey_hold r s :
  (r < numRelays)%nat -> arrays_ok s -> dtmfKey s = hold_key r ->
  let s1 := processKey s in
  arrays_ok s1 /\ relay_is_on r s1 = true /\ stayOn s1 !!! r = true.
Proof.
  intros Hr (Hn & Hs & Ho) Hk s1. subst s1.
  rewrite processKey_nonzero by (rewrite Hk; apply hold_key_nonzero).
  rewrite (switch_hold r) by (exact Hr || exact Hk).
  unfold seq.
  destruct (relayOn_arrays r true (delay 500 s)) as (Hn1 & Hs1 & Hr1).
  unfold arrays_ok, relay_is_on, assign_stayOn, set_dtmfKey, set_stayOn.
  cbn [nextRelay stayOn relayState].
  rewrite Hn1, Hs1, Hr1. rewrite !length_insert.
  change (nextRelay (delay 500 s)) with (nextRelay s).
  change (relayState (delay 500 s)) with (relayState s).
  change (stayOn (delay 500 s)) with (stayOn s).
  split; [tauto |].
  split; [apply relay_is_on_insert; lia |].
  apply list_lookup_total_insert_eq; lia.
Qed.

(** The deadline armed by [processKey] is due at a tick that comes more than
    [RELAY_PERIOD] later. *)
Lemma armed_deadline_due s1 t :
  RELAY_PERIOD < t - clock s1 <= RELAY_PERIOD + 2 ^ 31 ->
  due (wrap32 (millis s1 + RELAY_PERIOD)) (wrap32 t) = true.
Proof.
  intros He. unfold millis.
  replace t with (clock s1 + (t - clock s1)) by lia.
  apply due_after. exact He.
Qed.

(** C3.  Digit '2' with relay 0 off: [processKey] leaves relay 0 on (its pin
    at the on level, [relayState[0]] the on state) and not held, what it did
    to the outside is the relay-pin write followed by [SendMorse] of the on
    message with prefix '1', and the auto-off deadline of relay 0 is
    [millis() + RELAY_PERIOD] for the clock it ends with.  After that, in any
    run of ticks without an accepted key in which one tick comes later than
    that period after the arming (and within reach of the signed 32-bit
    test), relay 0 reads off at the end. *)
Theorem key2_relay0_on_then_auto_off (s : state) (pre post : list (Z * Z)) (i : Z * Z) :
  arrays_ok s -> dtmfKey s = ch_2 -> relay_is_on 0 s = false ->
  let s1 := processKey s in
  let ack := SendMorse onMsg ch_1 (digitalWrite P2 LOW (delay 500 s)) in
  (relay_is_on 0 s1 = true /\ pins s1 P2 = LOW /\ stayOn s1 !!! 0%nat = false /\
   trace s1 = trace ack /\
   nextRelay s1 !!! 0%nat = wrap32 (millis s1 + RELAY_PERIOD)) /\
  (quiet (pre ++ i :: post) s1 = true ->
   RELAY_PERIOD < clock (run pre s1) + fst i - clock s1 <= RELAY_PERIOD + 2 ^ 31 ->
   relay_is_on 0 (run (pre ++ i :: post) s1) = false).
Proof.
  intros Hok Hk _ s1 ack.
  assert (Hr : (0 < numRelays)%nat) by (unfold numRelays; simpl; lia).
  destruct (processKey_timed 0 s Hr Hok Hk) as (Hok1 & Hon & Hs & Hd & _ & Ht & Hp).
  fold s1 in Hok1, Hon, Hs, Hd, Ht, Hp.
  split.
  - split; [exact Hon |]. split.
    + rewrite Hp.
      pose proof (transmits_SendMorse onMsg ch_1 (digitalWrite P2 LOW (delay 500 s))) as H.
      destruct H as (_ & H & _). exact H.
    + split; [exact Hs |]. split; [| exact Hd]. rewrite Ht. reflexivity.
  - intros Hq He.
    apply auto_off_run; try assumption.
    rewrite Hd. apply armed_deadline_due. exact He.
Qed.

(** C4, as amended.  For relay [r], once its "on for the relay period" key is
    processed the relay reads on, is not held and its deadline is
    [millis() + RELAY_PERIOD].  In any run of ticks without an accepted key
    in which one tick comes MORE than [RELAY_PERIOD] milliseconds after the
    arming (and no more than 2^31 beyond that), the relay reads off at the
    end; at that tick the auto-off check calls [relayOff r] if the relay is
    still on. *)
Theorem timed_relay_off_after_period (r : nat) (s sb : state)
    (pre post : list (Z * Z)) (i : Z * Z) :
  (r < numRelays)%nat -> arrays_ok s -> dtmfKey s = timed_key r ->
  let s1 := processKey s in
  (relay_is_on r s1 = true /\ stayOn s1 !!! r = false /\
   nextRelay s1 !!! r = wrap32 (millis s1 + RELAY_PERIOD)) /\
  (quiet (pre ++ i :: post) s1 = true ->
   RELAY_PERIOD < clock (run pre s1) + fst i - clock s1 <= RELAY_PERIOD + 2 ^ 31 ->
   relay_is_on r (run (pre ++ i :: post) s1) = false /\
   (relay_is_on r sb = true -> stayOn sb = stayOn s1 -> nextRelay sb = nextRelay s1 ->
    loop_relay (wrap32 (clock (run pre s1) + fst i)) r sb = relayOff r sb)).
Proof.
  intros Hr Hok Hk s1.
  destruct (processKey_timed r s Hr Hok Hk) as (Hok1 & Hon & Hs & Hd & _).
  fold s1 in Hok1, Hon, Hs, Hd.
  split; [tauto |].
  intros Hq He.
  assert (Hdue : due (nextRelay s1 !!! r) (wrap32 (clock (run pre s1) + fst i)) = true).
  { rewrite Hd. apply armed_deadline_due. exact He. }
  split.
  - apply auto_off_run; assumption.
  - intros Hon' Hs' Hn'. rewrite loop_relay_expires. unfold expires.
    rewrite Hon', Hs', Hn', Hs, Hdue. reflexivity.
Qed.

(** C5.  For relay [r], once its "on until switched off" key is processed the
    relay reads on and is held; through any number of ticks without an
    accepted key, however much time they span, it still reads on and is
    still held; and the auto-off check of [loop] does nothing at all for a
    relay whose [stayOn] flag is set. *)
Theorem held_relay_stays_on (r : nat) (s sb : state) (inputs : list (Z * Z)) (t : Z) :
  (r < numRelays)%nat -> arrays_ok s -> dtmfKey s = hold_key r ->
  let s1 := processKey s in
  (relay_is_on r s1 = true /\ stayOn s1 !!! r = true) /\
  (quiet inputs s1 = true ->
   relay_is_on r (run inputs s1) = true /\ stayOn (run inputs s1) !!! r = true) /\
  (stayOn sb !!! r = true -> loop_relay t r sb = sb).
Proof.
  intros Hr Hok Hk s1.
  destruct (processKey_hold r s Hr Hok Hk) as (Hok1 & Hon & Hs).
  fold s1 in Hok1, Hon, Hs.
  split; [tauto |]. split.
  - intros Hq.
    destruct (quiet_run_kept inputs s1 Hok1 Hq) as (_ & Hs' & _).
    unfold relay_is_on. rewrite (held_run r inputs s1 Hok1 Hs Hq), Hs'.
    split; [exact Hon | exact Hs].
  - intros Hh. rewrite loop_relay_expires. unfold expires.
    rewrite Hh, andb_false_r. reflexivity.
Qed.

(** ** Keys without a [case] *)

(** C6.  For an accepted key that [processKey] has no [case] for ('C', say),
    [processKey] keys the transmitter, sends the key's character and then
    '?', unkeys, and clears the key; no element of [relayState], [stayOn] or
    [nextRelay] changes and neither relay pin is written. *)
Theorem unmapped_key_echoed (s : state) :
  dtmfKey s <> 0 -> mapped_key (dtmfKey s) = false ->
  let s1 := processKey s in
  s1 = set_dtmfKey 0
         (pttUp (sendChar ch_query (sendChar (dtmfKey s) (pttDown (delay 500 s))))) /\
  relayState s1 = relayState s /\ stayOn s1 = stayOn s /\
  nextRelay s1 = nextRelay s /\
  pins s1 P2 = pins s P2 /\ pins s1 P3 = pins s P3.
Proof.
  intros Hk Hm s1.
  assert (Heq : s1 = set_dtmfKey 0
            (pttUp (sendChar ch_query (sendChar (dtmfKey s) (pttDown (delay 500 s)))))).
  { subst s1. rewrite processKey_nonzero by exact Hk. f_equal.
    unfold processKey_switch, mapped_key in *.
    change (dtmfKey (delay 500 s)) with (dtmfKey s).
    repeat (apply orb_false_iff in Hm as [Hm ?]).
    repeat match goal with H : (_ =? _) = false |- _ => rewrite H; clear H end.
    reflexivity. }
  split; [exact Heq |].
  assert (Htx : transmits (delay 500 ;; pttDown ;; sendChar (dtmfKey s) ;;
                           sendChar ch_query ;; pttUp)) by auto 10 with tx.
  specialize (Htx s). unfold seq in Htx.
  destruct Htx as (_ & Hp2 & Hp3 & Hn & Hr & Hs & _).
  rewrite Heq. unfold set_dtmfKey. cbn [relayState stayOn nextRelay pins].
  tauto.
Qed.

(** ** Station identification *)

Lemma no_auto_off t n : forall s,
  (forall i, (i < n)%nat -> expires t i s = false) ->
  for_upto n (loop_relay t) s = s.
Proof.
  induction n as [| n IH]; intros s H; simpl; [reflexivity |].
  rewrite IH by (intros i Hi; apply H; lia).
  rewrite loop_relay_expires, H by lia. reflexivity.
Qed.

(** The decoder poll when no key is accepted: it transmits nothing. *)
Lemma loop_dtmf_silent t key s :
  due (nextDTMF s) t && fst (checkDTMF key s) = false ->
  let s1 := loop_dtmf t key s in
  trace s1 = trace s /\ nextID s1 = nextID s /\ idNeeded s1 = idNeeded s /\
  cmdActive s1 = cmdActive s /\
  nextRelay s1 = nextRelay s /\ relayState s1 = relayState s /\ stayOn s1 = stayOn s.
Proof.
  unfold loop_dtmf. intros Hq.
  destruct (due (nextDTMF s) t); [| simpl; tauto].
  simpl in Hq. unfold checkDTMF in *.
  destruct (waitForSpace s), (key =? 0); simpl in *;
    try (destruct (dtmfKey s =? 0); simpl in *; try discriminate);
    repeat split; reflexivity.
Qed.

(** ** The Morse sender *)

(** The search of [sendChar] stops at the character or at the terminator. *)
Lemma find_char_result c table : forall k,
  snd (find_char c table k) = 0 \/ snd (find_char c table k) = c.
Proof.
  induction table as [| m rest IH]; intros k; simpl; [left; reflexivity |].
  destruct (m =? 0); [left; reflexivity |].
  destruct (Z.eqb_spec c m) as [-> | _]; [right; reflexivity | apply IH].
Qed.


Lemma sendChar_found c s :
  in_chtable c = true -> c <> ch_dash ->
  sendChar c s =
  (if negb (c =? ch_space) then CharBreak else id) (char_elements c s).
Proof.
  unfold in_chtable, sendChar, char_elements. intros H Hc.
  pose proof (find_char_result c chtable 0) as Hm.
  destruct (find_char c chtable 0) as [k m]. simpl in *.
  destruct Hm as [-> | ->]; [discriminate |].
  apply Z.eqb_neq in Hc. rewrite Hc, H. simpl. unfold seq.
  rewrite andb_true_r. reflexivity.
Qed.


(** ** Switching a relay off *)

(** C9.  Of the relay data, [relayOff r] changes the output pin of relay [r]
    and [relayState[r]], both to the off level, and nothing else: [stayOn]
    and [nextRelay] are the same arrays afterwards, for relay [r] too (a held
    relay switched off is still flagged held), and every other relay keeps
    its state and its pin level.  The decoder and command globals are left
    alone as well; what the acknowledgment it sends touches is the
    transmitter side only (the clock, PTT, tone, LED, [idNeeded] and
    [nextID]). *)
Theorem relayOff_frame (r : nat) (s : state) :
  (r < numRelays)%nat -> arrays_ok s ->
  let s1 := relayOff r s in
  pins s1 (relayPin !!! r) = lnot (onState !!! r) /\
  relayState s1 !!! r = lnot (onState !!! r) /\
  stayOn s1 = stayOn s /\ nextRelay s1 = nextRelay s /\
  (stayOn s !!! r = true -> stayOn s1 !!! r = true) /\
  (forall i, (i < numRelays)%nat -> i <> r ->
     relayState s1 !!! i = relayState s !!! i /\
     stayOn s1 !!! i = stayOn s !!! i /\
     nextRelay s1 !!! i = nextRelay s !!! i /\
     pins s1 (relayPin !!! i) = pins s (relayPin !!! i)) /\
  (dtmfKey s1 = dtmfKey s /\ waitForSpace s1 = waitForSpace s /\
   nextDTMF s1 = nextDTMF s /\
   nextCmdTimeout s1 = nextCmdTimeout s /\ cmdActive s1 = cmdActive s).
Proof.
  intros Hr (Hn & Hs & Ho) s1.
  destruct (relayOff_arrays r s) as (Hn1 & Hs1 & Hr1). fold s1 in Hn1, Hs1, Hr1.
  set (s0 := digitalWrite (relayPin !!! r) (lnot (onState !!! r)) s).
  pose proof (transmits_SendMorse offMsg (to_char (Z.of_nat r + ch_1)) s0) as Htx.
  assert (E : s1 = assign_relayState r (lnot (onState !!! r))
                     (SendMorse offMsg (to_char (Z.of_nat r + ch_1)) s0)) by reflexivity.
  destruct Htx as (_ & Hp2 & Hp3 & _ & _ & _ & Hk & Hw & Hd & Hc & Ha).
  rewrite Hn1, Hs1, Hr1.
  split.
  { rewrite E. unfold assign_relayState, set_relayState. cbn [pins].
    destruct r as [| [| r]];
      [etransitivity; [exact Hp2 | reflexivity]
      | etransitivity; [exact Hp3 | reflexivity]
      | unfold numRelays in Hr; simpl in Hr; lia]. }
  split; [apply list_lookup_total_insert_eq; lia |].
  split; [reflexivity |]. split; [reflexivity |]. split; [tauto |].
  split.
  - intros i Hi Hne.
    rewrite list_lookup_total_insert_ne by congruence.
    split; [reflexivity |]. split; [reflexivity |]. split; [reflexivity |].
    rewrite E. unfold assign_relayState, set_relayState. cbn [pins].
    destruct r as [| [| r]], i as [| [| i]];
      try (unfold numRelays in *; simpl in *; lia); try congruence.
    + etransitivity; [exact Hp3 | reflexivity].
    + etransitivity; [exact Hp2 | reflexivity].
  - rewrite E. unfold assign_relayState, set_relayState.
    cbn [dtmfKey waitForSpace nextDTMF nextCmdTimeout cmdActive].
    rewrite Hk, Hw, Hd, Hc, Ha. repeat split.
Qed.

(** ** Case folding in [SendMorse] *)

Lemma to_char_ascii b : 0 <= b < 128 -> to_char b = b.
Proof.
  intros H. unfold to_char. rewrite Z.mod_small by lia.
  destruct (Z.ltb_spec b 128); [reflexivity | lia].
Qed.

Lemma to_char_range b : -128 <= to_char b < 128.
Proof.
  unfold to_char. pose proof (Z.mod_pos_bound b 256 ltac:(lia)).
  destruct (Z.ltb_spec (b mod 256) 128); lia.
Qed.

Lemma to_char_byte_nonzero b : 0 < b < 256 -> to_char b <> 0.
Proof.
  intros H. unfold to_char. rewrite Z.mod_small by lia.
  destruct (Z.ltb_spec b 128); lia.
Qed.

(** The loop of [SendMorse] over a string of at most 255 bytes, none of them
    NUL: from index [k] it sends the bytes from [k] on, folded, and stops at
    the terminator, with passes to spare. *)
Lemma SendMorse_loop_folds message n : forall k s,
  Forall (fun b => 0 < b < 256) message ->
  (length message <= 255)%nat -> (k <= length message)%nat ->
  (length message - k < n)%nat ->
  SendMorse_loop n message (Z.of_nat k) s =
  sendChars (map (fun b => fold_case (to_char b)) (drop k message)) s.
Proof.
  induction n as [| n IH]; intros k s Hm Hlen Hk Hn; [lia |].
  cbn [SendMorse_loop]. unfold pgm_read_byte. rewrite Nat2Z.id.
  destruct (message !! k) as [b |] eqn:Hb.
  - assert (Hklt : (k < length message)%nat) by (apply lookup_lt_is_Some; eauto).
    pose proof (Forall_lookup_1 _ _ _ _ Hm Hb) as Hbr. cbv beta in Hbr.
    cbn [default from_option id]. pose proof (to_char_byte_nonzero b Hbr) as Hnz.
    pose proof (to_char_range b) as Hrange.
    destruct (Z.eqb_spec (to_char b) 0); [contradiction |].
    rewrite (drop_S message b k Hb). unfold seq.
    assert (Hu : to_uchar (Z.of_nat k + 1) = Z.of_nat (S k))
      by (unfold to_uchar; rewrite Z.mod_small by lia; lia).
    rewrite Hu.
    rewrite IH by (assumption || lia).
    assert (Hj : (if ch_Z <? to_char b then to_char (to_char b - ch_space) else to_char b) =
                 fold_case (to_char b)).
    { unfold fold_case, ch_Z, ch_space.
      destruct (Z.ltb_spec 90 (to_char b)); [rewrite to_char_ascii by lia |]; reflexivity. }
    rewrite Hj. reflexivity.
  - apply lookup_ge_None in Hb. cbn [default from_option].
    change (to_char 0 =? 0) with true. cbv iota.
    rewrite drop_ge by lia. reflexivity.
Qed.

(** From an index within a string of at most 255 bytes the loop reaches a
    zero byte, the terminator at the latest, before the index can wrap: any
    two stocks of passes that outlast the rest of the string give the same
    result. *)
Lemma SendMorse_loop_passes message n : forall m k s,
  (length message <= 255)%nat -> (k <= length message)%nat ->
  (length message - k < n)%nat -> (length message - k < m)%nat ->
  SendMorse_loop n message (Z.of_nat k) s = SendMorse_loop m message (Z.of_nat k) s.
Proof.
  induction n as [| n IH]; intros m k s Hlen Hk Hn Hm; [lia |].
  destruct m as [| m]; [lia |].
  cbn [SendMorse_loop]. unfold pgm_read_byte. rewrite Nat2Z.id.
  destruct (message !! k) as [b |] eqn:Hb; cbn [default from_option id].
  - assert (Hklt : (k < length message)%nat) by (apply lookup_lt_is_Some; eauto).
    destruct (to_char b =? 0); [reflexivity |].
    assert (Hu : to_uchar (Z.of_nat k + 1) = Z.of_nat (S k))
      by (unfold to_uchar; rewrite Z.mod_small by lia; lia).
    rewrite Hu. unfold seq.
    apply IH; lia.
  - reflexivity.
Qed.

(** The loop over a [pgm_string] ends within the 256 passes, on a zero byte
    and never for want of passes: more passes change nothing. *)
Lemma SendMorse_loop_ends (message : pgm_string) n s :
  (256 <= n)%nat ->
  SendMorse_loop n (bytes message) 0 s = SendMorse_loop 256 (bytes message) 0 s.
Proof.
  intros Hn. pose proof (bytes_fit message) as Hfit. apply Nat.leb_le in Hfit.
  apply (SendMorse_loop_passes (bytes message) n 256 0); lia.
Qed.

(** C10.  The loop of [SendMorse] hands [sendChar] each character of the
    message (a string of at most 255 bytes before its terminator, read as
    [char]) with 0x20 taken off if its code is above 'Z' and unchanged if it
    is 'Z' or below, and ends at the terminator.  So a lowercase letter [j]
    goes out as the capital letter [j - 0x20]: the message made of [j] is
    sent exactly as the message made of that capital. *)
Theorem SendMorse_folds_lowercase (message lower upper : pgm_string)
    (prefix j : Z) (s : state) :
  Forall (fun b => 0 < b < 256) (bytes message) ->
  97 <= j <= 122 -> bytes lower = [j] -> bytes upper = [j - 32] ->
  SendMorse message prefix s =
    pttUp (sendChars (map (fun b => fold_case (to_char b)) (bytes message))
             ((if negb (prefix =? 0) then sendChar prefix ;; sendChar ch_space else id)
                (pttDown s))) /\
  (forall c, (ch_Z < c -> fold_case c = c - ch_space) /\ (c <= ch_Z -> fold_case c = c)) /\
  (fold_case (to_char j) = j - 32 /\ 65 <= fold_case (to_char j) <= 90) /\
  SendMorse lower prefix s = SendMorse upper prefix s.
Proof.
  intros Hm Hj Hlow Hup.
  assert (Hfold : forall c, (ch_Z < c -> fold_case c = c - ch_space) /\
                            (c <= ch_Z -> fold_case c = c)).
  { intros c. unfold fold_case, ch_Z, ch_space.
    destruct (Z.ltb_spec 90 c); split; intros; try reflexivity; lia. }
  assert (Hfj : fold_case (to_char j) = j - 32).
  { rewrite to_char_ascii by lia. apply (Hfold j). unfold ch_Z. lia. }
  assert (Hsend : forall (m : pgm_string) st,
            Forall (fun b => 0 < b < 256) (bytes m) ->
            SendMorse_loop 256 (bytes m) 0 st =
            sendChars (map (fun b => fold_case (to_char b)) (bytes m)) st).
  { intros m st Hb. pose proof (bytes_fit m) as Hfit. apply Nat.leb_le in Hfit.
    rewrite (SendMorse_loop_folds (bytes m) 256 0) by (assumption || lia).
    reflexivity. }
  split; [| split; [exact Hfold | split; [split; [exact Hfj | lia] |]]].
  - unfold SendMorse, seq. rewrite Hsend by exact Hm. reflexivity.
  - unfold SendMorse, seq.
    rewrite !Hsend by (rewrite ?Hlow, ?Hup; repeat constructor; lia).
    rewrite Hlow, Hup. simpl. rewrite Hfj, (to_char_ascii (j - 32)) by lia.
    replace (fold_case (j - 32)) with (j - 32); [reflexivity |].
    symmetry. apply (Hfold (j - 32)). unfold ch_Z. lia.
Qed.

(** ** Station identification *)

Lemma loop_after_dtmf key s :
  loop key s =
  emit ESleep (for_upto numRelays (loop_relay (millis s))
                 (loop_id (millis s) (loop_cmd (millis s) (loop_dtmf (millis s) key s)))).
Proof. reflexivity. Qed.

Lemma sends_morse_id : sends_morse id.
Proof. intros s. split; [exists []; rewrite app_nil_r; split; reflexivity | tauto]. Qed.

Lemma sends_morse_seq f g : sends_morse f -> sends_morse g -> sends_morse (f ;; g).
Proof.
  intros Hf Hg s. unfold seq.
  destruct (Hf s) as ((l1 & Ht1 & Hl1) & Hp1 & Hi1 & Hn1).
  destruct (Hg (f s)) as ((l2 & Ht2 & Hl2) & Hp2 & Hi2 & Hn2).
  split.
  - exists (l1 ++ l2). rewrite Ht2, Ht1, <- app_assoc. split; [reflexivity |].
    rewrite forallb_app, Hl1, Hl2. reflexivity.
  - rewrite Hp2, Hi2, Hn2. tauto.
Qed.

Lemma sends_morse_if (b : bool) f g :
  sends_morse f -> sends_morse g -> sends_morse (if b then f else g).
Proof. destruct b; auto. Qed.

Ltac morse_prim e :=
  intros s; split; [exists [e]; split; reflexivity | repeat split; reflexivity].

Lemma sends_morse_tone : sends_morse (tone tonePin toneFreq).
Proof. morse_prim (ETone tonePin toneFreq). Qed.

Lemma sends_morse_noTone : sends_morse (noTone tonePin).
Proof. morse_prim (ENoTone tonePin). Qed.

Lemma sends_morse_led v : sends_morse (digitalWrite LED_BUILTIN v).
Proof. morse_prim (EWrite LED_BUILTIN v). Qed.

Lemma sends_morse_delay ms : sends_morse (delay ms).
Proof. morse_prim (EDelay ms). Qed.

#[local] Hint Resolve sends_morse_id sends_morse_seq sends_morse_if sends_morse_tone
  sends_morse_noTone sends_morse_led sends_morse_delay : tx.

Lemma sends_morse_sendElement j : sends_morse (sendElement j).
Proof. unfold sendElement, dit, dah, wordBreak. auto 20 with tx. Qed.

Lemma sends_morse_CharBreak : sends_morse CharBreak.
Proof. unfold CharBreak. auto with tx. Qed.

#[local] Hint Resolve sends_morse_sendElement sends_morse_CharBreak : tx.

Lemma sends_morse_sendElements_loop n : forall bits, sends_morse (sendElements_loop n bits).
Proof. induction n as [| n IH]; intros bits; simpl; auto with tx. Qed.

Lemma sends_morse_sendChar c : sends_morse (sendChar c).
Proof.
  unfold sendChar. destruct (find_char c chtable 0) as [k m].
  unfold sendElements. auto 10 using sends_morse_sendElements_loop with tx.
Qed.

#[local] Hint Resolve sends_morse_sendChar : tx.

Lemma sends_morse_SendMorse_loop n message : forall i,
  sends_morse (SendMorse_loop n message i).
Proof. induction n as [| n IH]; intros i; simpl; auto with tx. Qed.


(** A transmission sets the flag: [SendMorse] keys PTT once, at its start. *)
Lemma SendMorse_flag message prefix s :
  idNeeded (SendMorse message prefix s) = true /\
  nextID (SendMorse message prefix s) = wrap32 (wrap32 (clock s + 400) + ID_PERIOD) /\
  pins (SendMorse message prefix s) PTT = LOW.
Proof.
  unfold SendMorse, seq.
  assert (Hbody : sends_morse
            ((if negb (prefix =? 0) then sendChar prefix ;; sendChar ch_space else id) ;;
             SendMorse_loop 256 (bytes message) 0))
    by auto using sends_morse_SendMorse_loop with tx.
  destruct (Hbody (pttDown s)) as (_ & _ & Hi & Hn). unfold seq in Hi, Hn.
  unfold pttUp, digitalWrite, seq, emit, set_trace, set_pins.
  cbn [idNeeded nextID pins]. rewrite Hi, Hn.
  split; [reflexivity |]. split; reflexivity.
Qed.

Lemma relayOff_flag r s : idNeeded (relayOff r s) = true.
Proof.
  unfold relayOff, seq, assign_relayState, set_relayState. cbn [idNeeded].
  apply SendMorse_flag.
Qed.

Lemma relayOn_flag r p s : idNeeded (relayOn r p s) = true.
Proof.
  unfold relayOn, seq, assign_relayState, set_relayState. cbn [idNeeded].
  destruct p; apply SendMorse_flag.
Qed.

Lemma sendChar_flag c s : idNeeded (sendChar c s) = idNeeded s.
Proof. apply (sends_morse_sendChar c s). Qed.

Lemma sendVcc_flag s : idNeeded (sendVcc s) = true.
Proof.
  unfold sendVcc. destruct (readVcc s) as [vcc s0]. unfold seq, pttUp, digitalWrite.
  unfold seq, emit, set_trace, set_pins. cbn [idNeeded].
  rewrite !sendChar_flag. reflexivity.
Qed.

Lemma timed_branch_flag r s :
  idNeeded ((relayOn r false ;;
             assign_stayOn r false ;;
             (fun s => assign_nextRelay r (wrap32 (millis s + RELAY_PERIOD)) s)) s) = true.
Proof.
  unfold seq, assign_stayOn, assign_nextRelay, set_stayOn, set_nextRelay.
  cbn [idNeeded]. apply relayOn_flag.
Qed.

Lemma hold_branch_flag r s :
  idNeeded ((relayOn r true ;; assign_stayOn r true) s) = true.
Proof.
  unfold seq, assign_stayOn, set_stayOn. cbn [idNeeded]. apply relayOn_flag.
Qed.

Lemma echo_branch_flag s :
  idNeeded ((pttDown ;; (fun s => sendChar (dtmfKey s) s) ;; sendChar ch_query ;; pttUp) s) =
  true.
Proof.
  unfold seq, pttUp, digitalWrite. unfold seq, emit, set_trace, set_pins. cbn [idNeeded].
  rewrite !sendChar_flag. reflexivity.
Qed.

(** An accepted key keys the transmitter, whichever key it is. *)
Lemma processKey_flag s : dtmfKey s <> 0 -> idNeeded (processKey s) = true.
Proof.
  intros Hk. rewrite processKey_nonzero by exact Hk.
  unfold set_dtmfKey. cbn [idNeeded].
  generalize (delay 500 s). intros s0.
  unfold processKey_switch. cbv zeta.
  destruct (dtmfKey s0 =? ch_1); [apply relayOff_flag |].
  destruct (dtmfKey s0 =? ch_2); [apply timed_branch_flag |].
  destruct (dtmfKey s0 =? ch_3); [apply hold_branch_flag |].
  destruct (dtmfKey s0 =? ch_4); [apply relayOff_flag |].
  destruct (dtmfKey s0 =? ch_5); [apply timed_branch_flag |].
  destruct (dtmfKey s0 =? ch_6); [apply hold_branch_flag |].
  destruct (dtmfKey s0 =? ch_B); [apply sendVcc_flag |].
  apply echo_branch_flag.
Qed.

Lemma setup_flag s :
  idNeeded (setup s) = true /\ nextID (setup s) = millis s /\
  pins (setup s) PTT = LOW /\
  trace (setup s) =
    trace s ++ [EPinMode tonePin; EPinMode PTT; EPinMode LED_BUILTIN;
                EWrite tonePin LOW; EWrite PTT LOW; EWrite LED_BUILTIN LOW;
                EPinMode P2; EWrite P2 HIGH; EPinMode P3; EWrite P3 HIGH;
                EDtmfBegin].
Proof.
  split; [reflexivity |]. split; [reflexivity |]. split; [reflexivity |].
  unfold setup, seq. cbn. rewrite <- !app_assoc. reflexivity.
Qed.

(** The decoder poll when no key is accepted: the command globals too. *)
Lemma loop_dtmf_silent_cmd t key s :
  due (nextDTMF s) t && fst (checkDTMF key s) = false ->
  nextCmdTimeout (loop_dtmf t key s) = nextCmdTimeout s.
Proof.
  unfold loop_dtmf. intros Hq.
  destruct (due (nextDTMF s) t); [| reflexivity].
  simpl in Hq. unfold checkDTMF in *.
  destruct (waitForSpace s), (key =? 0); simpl in *;
    try (destruct (dtmfKey s =? 0); simpl in *; try discriminate);
    reflexivity.
Qed.

(** A pass of [loop] that keys PTT for nothing but the ID is the decoder
    poll, which is silent, then the ID check. *)
Lemma ptt_free_pass key s :
  keys_ptt key s = false ->
  let s1 := loop_dtmf (millis s) key s in
  loop key s = emit ESleep (loop_id (millis s) s1) /\
  trace s1 = trace s /\ idNeeded s1 = idNeeded s /\ nextID s1 = nextID s.
Proof.
  intros H s1. unfold keys_ptt in H.
  apply orb_false_iff in H as [H Hexp]. apply orb_false_iff in H as [Hacc Hcmd].
  unfold accepts in Hacc.
  destruct (loop_dtmf_silent (millis s) key s Hacc) as (Ht & Hn & Hi & Hc & Hnr & Hrs & Hso).
  pose proof (loop_dtmf_silent_cmd (millis s) key s Hacc) as Hct.
  fold s1 in Ht, Hn, Hi, Hc, Hnr, Hrs, Hso, Hct.
  split; [| tauto].
  rewrite loop_after_dtmf. fold s1.
  assert (E2 : loop_cmd (millis s) s1 = s1).
  { unfold loop_cmd. rewrite Hc, Hct.
    destruct (cmdActive s); [| reflexivity]. simpl in Hcmd. rewrite Hcmd. reflexivity. }
  rewrite E2.
  rewrite no_auto_off; [reflexivity |].
  intros i Hlt.
  assert (K : relays_kept s (loop_id (millis s) s1)).
  { eapply relays_kept_trans; [| apply loop_id_relays_kept].
    unfold relays_kept. rewrite Hnr, Hrs, Hso.
    repeat split; try reflexivity.
    - apply (loop_dtmf_quiet (millis s) key s Hacc).
    - apply (loop_dtmf_quiet (millis s) key s Hacc). }
  rewrite (expires_kept _ i _ _ K).
  unfold numRelays in *. cbn [length relayPin List.seq existsb] in Hexp, Hlt.
  destruct i as [| [| i]]; [| | lia].
  - apply orb_false_iff in Hexp as [H0 _]. exact H0.
  - apply orb_false_iff in Hexp as [_ H1]. apply orb_false_iff in H1 as [H1 _]. exact H1.
Qed.

(** Such a pass with the flag clear sends nothing. *)
Lemma ptt_free_pass_clear key s :
  keys_ptt key s = false -> idNeeded s = false ->
  trace (loop key s) = trace s ++ [ESleep] /\ idNeeded (loop key s) = false /\
  nextID (loop key s) =
    (if due (nextID s) (millis s) then wrap32 (millis s + ID_PERIOD) else nextID s).
Proof.
  intros Hk Hi.
  destruct (ptt_free_pass key s Hk) as (-> & Ht & Hi1 & Hn).
  set (s1 := loop_dtmf (millis s) key s) in *.
  unfold loop_id. rewrite Hn, Hi1, Hi.
  destruct (due (nextID s) (millis s));
    unfold emit, set_trace, set_nextID; cbn [trace idNeeded nextID];
    rewrite Ht, ?Hi1, ?Hn; repeat split; assumption.
Qed.

Lemma ptt_free_run inputs : forall s,
  idNeeded s = false -> ptt_free inputs s = true ->
  idNeeded (run inputs s) = false /\
  trace (run inputs s) = trace s ++ repeat ESleep (length inputs).
Proof.
  induction inputs as [| i rest IH]; intros s Hi Hf; simpl in *.
  - rewrite app_nil_r. split; [exact Hi | reflexivity].
  - apply andb_true_iff in Hf as [Hk Hf]. apply negb_true_iff in Hk.
    destruct (ptt_free_pass_clear (snd i) (elapse (fst i) s) Hk Hi) as (Ht & Hi1 & _).
    fold (tick i s) in Ht, Hi1.
    destruct (IH (tick i s) Hi1 Hf) as (Hi2 & Ht2).
    split; [exact Hi2 |]. rewrite Ht2, Ht.
    change (trace (elapse (fst i) s)) with (trace s).
    rewrite <- app_assoc. reflexivity.
Qed.

(** C7, as amended.  [idNeeded] is the record of PTT having been keyed:
    [pttDown] sets it and moves the ID deadline to its own
    [millis() + ID_PERIOD], so every [SendMorse], every accepted key and every
    [relayOff] leave it set; [setup] sets it too, with the deadline at once,
    without keying anything.  At the station-ID check of a pass, if the
    deadline is due there, the ID message is sent exactly when the flag is
    set, the flag ends clear and [nextID] becomes [timeNow + ID_PERIOD] either
    way; if it is not due, the check does nothing.  A pass that keys PTT for
    nothing else (no accepted key, no command timeout, no relay expiring) is
    the silent decoder poll followed by that check: with the flag clear it
    sends nothing and, if the deadline was due, ends with [nextID] exactly
    [ID_PERIOD] after its [timeNow]; with the flag set and the deadline due it
    sends the ID and ends the same way.  Through any run of such passes
    started with the flag clear, the flag stays clear and nothing is
    transmitted at all. *)
Theorem station_id_check (t key : Z) (r : nat) (s sp : state)
    (message : pgm_string) (prefix : Z) (inputs : list (Z * Z)) :
  (pins (pttDown s) PTT = HIGH /\ idNeeded (pttDown s) = true /\
   nextID (pttDown s) = wrap32 (wrap32 (clock s + 400) + ID_PERIOD)) /\
  (idNeeded (SendMorse message prefix s) = true /\
   nextID (SendMorse message prefix s) = wrap32 (wrap32 (clock s + 400) + ID_PERIOD)) /\
  (dtmfKey s <> 0 -> idNeeded (processKey s) = true) /\
  idNeeded (relayOff r s) = true /\
  (idNeeded (setup s) = true /\ nextID (setup s) = millis s /\
   pins (setup s) PTT = LOW /\
   trace (setup s) =
     trace s ++ [EPinMode tonePin; EPinMode PTT; EPinMode LED_BUILTIN;
                 EWrite tonePin LOW; EWrite PTT LOW; EWrite LED_BUILTIN LOW;
                 EPinMode P2; EWrite P2 HIGH; EPinMode P3; EWrite P3 HIGH;
                 EDtmfBegin]) /\
  (due (nextID s) t = true ->
     nextID (loop_id t s) = wrap32 (t + ID_PERIOD) /\
     idNeeded (loop_id t s) = false /\
     (idNeeded s = true ->
        loop_id t s = set_nextID (wrap32 (t + ID_PERIOD))
                        (set_idNeeded false (SendMorse idMsg 0 s))) /\
     (idNeeded s = false ->
        loop_id t s = set_nextID (wrap32 (t + ID_PERIOD)) s /\
        trace (loop_id t s) = trace s)) /\
  (due (nextID s) t = false -> loop_id t s = s) /\
  (keys_ptt key sp = false ->
     let s1 := loop_dtmf (millis sp) key sp in
     (loop key sp = emit ESleep (loop_id (millis sp) s1) /\
      trace s1 = trace sp /\ idNeeded s1 = idNeeded sp /\ nextID s1 = nextID sp) /\
     (idNeeded sp = false ->
        trace (loop key sp) = trace sp ++ [ESleep] /\
        idNeeded (loop key sp) = false /\
        (due (nextID sp) (millis sp) = true ->
           nextID (loop key sp) = wrap32 (millis sp + ID_PERIOD))) /\
     (idNeeded sp = true -> due (nextID sp) (millis sp) = true ->
        trace (loop key sp) = trace (SendMorse idMsg 0 s1) ++ [ESleep] /\
        idNeeded (loop key sp) = false /\
        nextID (loop key sp) = wrap32 (millis sp + ID_PERIOD))) /\
  (idNeeded sp = false -> ptt_free inputs sp = true ->
     idNeeded (run inputs sp) = false /\
     trace (run inputs sp) = trace sp ++ repeat ESleep (length inputs)).
Proof.
  split; [repeat split; reflexivity |].
  split; [pose proof (SendMorse_flag message prefix s); tauto |].
  split; [apply processKey_flag |].
  split; [apply relayOff_flag |].
  split; [apply setup_flag |].
  split.
  { intros Hdue. unfold loop_id. rewrite Hdue.
    split; [reflexivity |].
    split; [destruct (idNeeded s) eqn:E; [reflexivity | exact E] |].
    split; [intros ->; reflexivity | intros ->; split; reflexivity]. }
  split; [intros Hnd; unfold loop_id; rewrite Hnd; reflexivity |].
  split; [| apply ptt_free_run].
  intros Hk s1.
  pose proof (ptt_free_pass key sp Hk) as Hpass. cbv zeta in Hpass. fold s1 in Hpass.
  split; [exact Hpass |]. split.
  - intros Hi. destruct (ptt_free_pass_clear key sp Hk Hi) as (Ht & Hi1 & Hn).
    split; [exact Ht |]. split; [exact Hi1 |].
    intros Hdue. rewrite Hn, Hdue. reflexivity.
  - intros Hi Hdue. destruct Hpass as (-> & Ht & Hi1 & Hn).
    unfold loop_id. rewrite Hn, Hdue, Hi1, Hi.
    repeat split; reflexivity.
Qed.

(** ** What every pass of [loop] keeps *)

Lemma ctl_kept_refl s : ctl_kept s s.
Proof. unfold ctl_kept. tauto. Qed.

Lemma ctl_kept_trans s1 s2 s3 : ctl_kept s1 s2 -> ctl_kept s2 s3 -> ctl_kept s1 s3.
Proof. unfold ctl_kept. intuition congruence. Qed.

Lemma tx_frame_ctl_kept s s' : tx_frame s s' -> ctl_kept s s'.
Proof.
  unfold tx_frame, ctl_kept.
  intros (-> & _ & _ & -> & -> & -> & -> & -> & -> & -> & ->). tauto.
Qed.

Lemma keeps_ctl_transmits f : transmits f -> keeps_ctl f.
Proof. intros H s. apply tx_frame_ctl_kept, H. Qed.

Lemma keeps_ctl_seq f g : keeps_ctl f -> keeps_ctl g -> keeps_ctl (f ;; g).
Proof. intros Hf Hg s. unfold seq. eapply ctl_kept_trans; [apply Hf | apply Hg]. Qed.

Lemma keeps_ctl_write p v : keeps_ctl (digitalWrite p v).
Proof. intros s. unfold ctl_kept. cbn. tauto. Qed.

Lemma keeps_ctl_assign_relayState i v : keeps_ctl (assign_relayState i v).
Proof. intros s. unfold ctl_kept. cbn. rewrite length_insert. tauto. Qed.

Lemma keeps_ctl_assign_stayOn i v : keeps_ctl (assign_stayOn i v).
Proof. intros s. unfold ctl_kept. cbn. rewrite length_insert. tauto. Qed.

Lemma keeps_ctl_assign_nextRelay i (v : state -> Z) :
  keeps_ctl (fun s => assign_nextRelay i (v s) s).
Proof. intros s. unfold ctl_kept. cbn. rewrite length_insert. tauto. Qed.

Lemma keeps_ctl_SendMorse message prefix : keeps_ctl (SendMorse message prefix).
Proof. apply keeps_ctl_transmits, transmits_SendMorse. Qed.

#[local] Hint Resolve keeps_ctl_seq keeps_ctl_write keeps_ctl_assign_relayState
  keeps_ctl_assign_stayOn keeps_ctl_assign_nextRelay keeps_ctl_SendMorse : tx.

Lemma keeps_ctl_relayOff r : keeps_ctl (relayOff r).
Proof. unfold relayOff. auto with tx. Qed.

Lemma keeps_ctl_relayOn r p : keeps_ctl (relayOn r p).
Proof. unfold relayOn. destruct p; auto with tx. Qed.

Lemma transmits_sendVcc : transmits sendVcc.
Proof.
  intros s. unfold sendVcc.
  destruct (readVcc s) as [vcc s0] eqn:E.
  assert (H0 : tx_frame s s0).
  { unfold readVcc in E. injection E as _ <-.
    apply (transmits_seq (emit EAdcRef) (delay 100)); auto with tx. }
  eapply tx_frame_trans; [exact H0 |].
  assert (H : transmits (SendMorse vccMsg 0 ;; pttDown ;;
                         sendChar (to_char (vcc / 10 + ch_0)) ;;
                         sendChar (to_char (vcc mod 10 + ch_0)) ;; pttUp))
    by auto 10 with tx.
  apply H.
Qed.

#[local] Hint Resolve keeps_ctl_relayOff keeps_ctl_relayOn : tx.

Lemma keeps_ctl_processKey_switch : keeps_ctl processKey_switch.
Proof.
  intros s. unfold processKey_switch. cbv zeta.
  repeat match goal with |- context [if ?b then _ else _] => destruct b end;
    try (revert s;
         match goal with |- forall s, ctl_kept s (?f s) => change (keeps_ctl f) end;
         auto 10 with tx).
  - apply keeps_ctl_transmits, transmits_sendVcc.
  - apply keeps_ctl_transmits.
    apply transmits_seq; [auto with tx |].
    apply transmits_seq; [intros s; apply transmits_sendChar | auto with tx].
Qed.

Lemma processKey_ctl s :
  dtmfKey (processKey s) = 0 /\
  adc (processKey s) = adc s /\ waitForSpace (processKey s) = waitForSpace s /\
  nextDTMF (processKey s) = nextDTMF s /\
  nextCmdTimeout (processKey s) = nextCmdTimeout s /\
  cmdActive (processKey s) = cmdActive s /\
  length (nextRelay (processKey s)) = length (nextRelay s) /\
  length (relayState (processKey s)) = length (relayState s) /\
  length (stayOn (processKey s)) = length (stayOn s).
Proof.
  unfold processKey, seq.
  set (s1 := if negb (dtmfKey s =? 0) then processKey_switch (delay 500 s) else s).
  assert (H : ctl_kept s s1).
  { subst s1. destruct (negb (dtmfKey s =? 0)); [| apply ctl_kept_refl].
    apply (keeps_ctl_seq (delay 500) processKey_switch);
      [apply keeps_ctl_transmits; auto with tx | apply keeps_ctl_processKey_switch]. }
  unfold ctl_kept in H. unfold set_dtmfKey. cbn. tauto.
Qed.

(** The decoder poll of [loop]. *)
Lemma loop_dtmf_inv t key s : sketch_inv s -> sketch_inv (loop_dtmf t key s).
Proof.
  intros ((Hn & Hr & Hs) & Hc & Hw). unfold loop_dtmf.
  destruct (due (nextDTMF s) t); [| repeat split; assumption].
  unfold checkDTMF.
  destruct (waitForSpace s) eqn:Ew.
  - destruct (Z.eqb_spec key 0) as [-> | Hk].
    + cbn [dtmfKey set_waitForSpace].
      destruct (Z.eqb_spec (dtmfKey s) 0) as [E | _]; [exfalso; apply Hw; auto |].
      cbn [negb].
      destruct (processKey_ctl (set_waitForSpace false s))
        as (Hk0 & _ & Hw1 & _ & _ & Hc1 & Hn1 & Hr1 & Hs1).
      unfold sketch_inv, arrays_ok, set_nextDTMF. cbn in *.
      rewrite Hw1, Hc1, Hn1, Hr1, Hs1. repeat split; try assumption; try discriminate.
    + unfold sketch_inv, arrays_ok, set_nextDTMF. cbn.
      rewrite Ew. repeat split; assumption.
  - destruct (Z.eqb_spec key 0) as [-> | Hk]; cbn [negb].
    + unfold sketch_inv, arrays_ok, set_nextDTMF. cbn.
      rewrite Ew. repeat split; try assumption; try discriminate.
    + unfold sketch_inv, arrays_ok, set_nextDTMF. cbn.
      repeat split; try assumption. intros _. exact Hk.
Qed.

Lemma ctl_kept_inv s s' : ctl_kept s s' -> sketch_inv s -> sketch_inv s'.
Proof.
  unfold ctl_kept, sketch_inv, arrays_ok.
  intros (_ & -> & -> & _ & _ & -> & -> & -> & ->). tauto.
Qed.

Lemma loop_cmd_idle t s : cmdActive s = false -> loop_cmd t s = s.
Proof. intros H. unfold loop_cmd. rewrite H. reflexivity. Qed.

Lemma keeps_ctl_loop_id t : keeps_ctl (loop_id t).
Proof.
  intros s. unfold loop_id.
  destruct (due (nextID s) t); [| apply ctl_kept_refl].
  destruct (idNeeded s).
  - unfold seq. pose proof (keeps_ctl_SendMorse idMsg 0 s) as H.
    unfold ctl_kept in *. cbn. exact H.
  - unfold ctl_kept. cbn. tauto.
Qed.

Lemma keeps_ctl_loop_relay t i : keeps_ctl (loop_relay t i).
Proof.
  intros s. rewrite loop_relay_expires.
  destruct (expires t i s); [apply keeps_ctl_relayOff | apply ctl_kept_refl].
Qed.

Lemma keeps_ctl_for_upto n body :
  (forall i, keeps_ctl (body i)) -> keeps_ctl (for_upto n body).
Proof.
  intros H. induction n as [| n IH]; intros s; simpl; [apply ctl_kept_refl |].
  eapply ctl_kept_trans; [apply IH | apply H].
Qed.

(** Every tick keeps [sketch_inv]. *)
Lemma tick_inv i s : sketch_inv s -> sketch_inv (tick i s).
Proof.
  intros Hinv. unfold tick, loop, seq.
  set (s0 := elapse (fst i) s).
  assert (H0 : sketch_inv s0) by exact Hinv.
  set (t := millis s0).
  pose proof (loop_dtmf_inv t (snd i) s0 H0) as H1.
  set (s1 := loop_dtmf t (snd i) s0) in *.
  rewrite (loop_cmd_idle t s1) by apply H1.
  eapply ctl_kept_inv; [| exact H1].
  eapply ctl_kept_trans; [apply keeps_ctl_loop_id |].
  eapply ctl_kept_trans;
    [apply (keeps_ctl_for_upto numRelays (loop_relay t)), keeps_ctl_loop_relay |].
  unfold ctl_kept. cbn. tauto.
Qed.

Lemma run_inv inputs : forall s, sketch_inv s -> sketch_inv (run inputs s).
Proof.
  induction inputs as [| i rest IH]; intros s H; simpl; [exact H |].
  apply IH, tick_inv, H.
Qed.

Lemma setup_inv t0 a : sketch_inv (setup (power_on t0 a)).
Proof.
  unfold sketch_inv, arrays_ok. cbn. repeat split; try discriminate.
Qed.

Lemma reachable_inv s : reachable s -> sketch_inv s.
Proof. intros (t0 & a & inputs & ->). apply run_inv, setup_inv. Qed.

(** X1.  In every state the sketch can be in between two passes of [loop]
    after [setup], a key that awaits its release is nonzero.  So the first
    poll that is due and hears silence accepts it: [loop] runs [processKey]
    on it; the test [dtmfKey != 0] inside [checkDTMF] never turns a release
    down. *)
Theorem latched_key_always_accepted (s : state) (dt : Z) :
  reachable s -> waitForSpace s = true ->
  due (nextDTMF s) (wrap32 (clock s + dt)) = true ->
  let t := wrap32 (clock s + dt) in
  dtmfKey s <> 0 /\
  accepts 0 (elapse dt s) = true /\
  loop_dtmf t 0 (elapse dt s) =
    set_nextDTMF (wrap32 (t + DTMF_PERIOD))
      (processKey (set_waitForSpace false (elapse dt s))).
Proof.
  intros Hreach Hw Hdue t.
  destruct (reachable_inv s Hreach) as (_ & _ & Hkey).
  specialize (Hkey Hw).
  assert (Hchk : checkDTMF 0 (elapse dt s) = (true, set_waitForSpace false (elapse dt s))).
  { unfold checkDTMF. change (waitForSpace (elapse dt s)) with (waitForSpace s).
    rewrite Hw. cbn [Z.eqb].
    change (dtmfKey (set_waitForSpace false (elapse dt s))) with (dtmfKey s).
    destruct (Z.eqb_spec (dtmfKey s) 0); [contradiction | reflexivity]. }
  split; [exact Hkey |]. split.
  - unfold accepts. rewrite Hchk.
    change (millis (elapse dt s)) with t. change (nextDTMF (elapse dt s)) with (nextDTMF s).
    subst t. rewrite Hdue. reflexivity.
  - unfold loop_dtmf. change (nextDTMF (elapse dt s)) with (nextDTMF s).
    subst t. rewrite Hdue, Hchk. reflexivity.
Qed.

(** X2.  No command session is ever open: [cmdActive] is false in every
    state the sketch can be in between two passes of [loop], and is still
    false when a pass reaches its command-timeout check, whatever key was
    processed before it.  That check therefore does nothing, and the timeout
    message is never sent. *)
Theorem command_timeout_never_fires (s : state) (i : Z * Z) :
  reachable s ->
  let s0 := elapse (fst i) s in
  let s1 := loop_dtmf (millis s0) (snd i) s0 in
  cmdActive s = false /\ cmdActive s1 = false /\
  loop_cmd (millis s0) s1 = s1 /\
  cmdActive (tick i s) = false.
Proof.
  intros Hreach s0 s1.
  pose proof (reachable_inv s Hreach) as Hinv.
  assert (H0 : sketch_inv s0) by exact Hinv.
  pose proof (loop_dtmf_inv (millis s0) (snd i) s0 H0) as H1. fold s1 in H1.
  split; [apply Hinv |]. split; [apply H1 |]. split.
  - apply loop_cmd_idle, H1.
  - apply (tick_inv i s Hinv).
Qed.

(** ** Start-up *)

(** X3.  [setup] leaves every relay off whatever the globals held before:
    each relay pin is at its off level, each [relayState] entry is the off
    state, no relay is held, every auto-off deadline is 0.  The transmitter
    is unkeyed, the tone pin and the LED are low, and the station ID is
    flagged as needed with its deadline at the [millis()] of [setup]. *)
Theorem setup_all_off (s : state) (r : nat) :
  arrays_ok s -> (r < numRelays)%nat ->
  let s1 := setup s in
  arrays_ok s1 /\
  relay_is_on r s1 = false /\
  pins s1 (relayPin !!! r) = lnot (onState !!! r) /\
  stayOn s1 !!! r = false /\ nextRelay s1 !!! r = 0 /\
  pins s1 PTT = LOW /\ pins s1 tonePin = LOW /\ pins s1 LED_BUILTIN = LOW /\
  idNeeded s1 = true /\ nextID s1 = millis s /\
  clock s1 = clock s.
Proof.
  intros (Hn & Hr & Hs) Hlt s1. subst s1.
  destruct s as [clk ad pn tr nr rs so k w nd ni idn nc ca cb cp cr cf cs].
  cbn in Hn, Hr, Hs.
  destruct nr as [| n0 [| n1 [| ? ?]]]; try discriminate.
  destruct rs as [| r0 [| r1 [| ? ?]]]; try discriminate.
  destruct so as [| o0 [| o1 [| ? ?]]]; try discriminate.
  destruct r as [| [| r]]; [| | unfold numRelays in Hlt; simpl in Hlt; lia];
    unfold arrays_ok; repeat split; vm_compute; reflexivity.
Qed.

Lemma due_just_passed c e :
  1 <= e <= 2 ^ 31 -> due (wrap32 c) (wrap32 (c + e)) = true.
Proof.
  intros He. pose proof (due_after c 0 e ltac:(lia)) as H.
  rewrite wrap32_add_l, Z.add_0_r in H. exact H.
Qed.

Lemma due_same t : due t t = false.
Proof. unfold due. rewrite Z.sub_diag. reflexivity. Qed.

(** The first pass from a state like the one [setup] leaves: nothing awaits
    release, no command session, ID needed and due since [nextID], relays
    off. *)
Lemma first_pass_id s d key :
  waitForSpace s = false -> cmdActive s = false -> idNeeded s = true ->
  (forall i, (i < numRelays)%nat -> relay_is_on i s = false) ->
  let t := wrap32 (clock s + d) in
  tick (d, key) s =
    if due (nextID s) t then
      emit ESleep (set_nextID (wrap32 (t + ID_PERIOD))
                     (set_idNeeded false (SendMorse idMsg 0 (loop_dtmf t key (elapse d s)))))
    else emit ESleep (loop_dtmf t key (elapse d s)).
Proof.
  intros Hw Hc Hi Hoff t.
  assert (Hquiet : due (nextDTMF (elapse d s)) t && fst (checkDTMF key (elapse d s)) = false).
  { unfold checkDTMF. change (waitForSpace (elapse d s)) with (waitForSpace s).
    rewrite Hw. destruct (key =? 0); simpl; apply andb_false_r. }
  destruct (loop_dtmf_silent t key (elapse d s) Hquiet)
    as (Ht & Hn & Hi1 & Hc1 & _ & Hr & _).
  set (s1 := loop_dtmf t key (elapse d s)) in *.
  change (nextID (elapse d s)) with (nextID s) in Hn.
  change (idNeeded (elapse d s)) with (idNeeded s) in Hi1.
  change (cmdActive (elapse d s)) with (cmdActive s) in Hc1.
  change (relayState (elapse d s)) with (relayState s) in Hr.
  unfold tick. cbn [fst snd]. rewrite loop_after_dtmf.
  change (millis (elapse d s)) with t. fold s1.
  rewrite (loop_cmd_idle t s1) by (rewrite Hc1; exact Hc).
  assert (Hnone : forall s2, relayState s2 = relayState s ->
                             for_upto numRelays (loop_relay t) s2 = s2).
  { intros s2 Hr2. apply no_auto_off. intros i Hlt.
    specialize (Hoff i Hlt). unfold expires, relay_is_on in *.
    rewrite Hr2, Hoff. reflexivity. }
  unfold loop_id. rewrite Hn, Hi1, Hi.
  destruct (due (nextID s) t).
  - rewrite Hnone; [reflexivity |].
    unfold set_nextID, set_idNeeded, seq. cbn [relayState].
    destruct (transmits_SendMorse idMsg 0 s1) as (_ & _ & _ & _ & Hrs & _).
    rewrite Hrs. exact Hr.
  - rewrite Hnone by exact Hr. reflexivity.
Qed.

Lemma first_pass_after_setup s t0 dt key :
  waitForSpace s = false -> cmdActive s = false -> idNeeded s = true ->
  nextID s = wrap32 t0 -> clock s = t0 ->
  (forall i, (i < numRelays)%nat -> relay_is_on i s = false) ->
  1 <= dt <= 2 ^ 31 ->
  let s' := tick (dt, key) s in
  idNeeded s' = false /\
  nextID s' = wrap32 (wrap32 (t0 + dt) + ID_PERIOD) /\
  (exists s1, trace s1 = trace s /\
              trace s' = trace (SendMorse idMsg 0 s1) ++ [ESleep]) /\
  trace (tick (0, key) s) = trace s ++ [ESleep] /\
  idNeeded (tick (0, key) s) = true.
Proof.
  intros Hw Hc Hi Hn Hclk Hoff Hdt s'.
  pose proof (first_pass_id s dt key Hw Hc Hi Hoff) as Hpass.
  pose proof (first_pass_id s 0 key Hw Hc Hi Hoff) as Hzero.
  cbv zeta in Hpass, Hzero. fold s' in Hpass.
  rewrite Hn, Hclk in Hpass, Hzero.
  rewrite (due_just_passed t0 dt Hdt) in Hpass.
  rewrite Z.add_0_r, due_same in Hzero.
  assert (Hsilent : forall d,
            let s1 := loop_dtmf (wrap32 (t0 + d)) key (elapse d s) in
            trace s1 = trace s /\ idNeeded s1 = true).
  { intros d s1.
    assert (Hq : due (nextDTMF (elapse d s)) (wrap32 (t0 + d)) &&
                 fst (checkDTMF key (elapse d s)) = false).
    { unfold checkDTMF. change (waitForSpace (elapse d s)) with (waitForSpace s).
      rewrite Hw. destruct (key =? 0); simpl; apply andb_false_r. }
    destruct (loop_dtmf_silent _ key (elapse d s) Hq) as (Ht & _ & Hi1 & _).
    split; [exact Ht | rewrite <- Hi; exact Hi1]. }
  destruct (Hsilent dt) as (Ht1 & _).
  destruct (Hsilent 0) as (Ht0 & Hi0). rewrite Z.add_0_r in Ht0, Hi0.
  rewrite Hpass, Hzero.
  split; [reflexivity |]. split; [reflexivity |]. split.
  - exists (loop_dtmf (wrap32 (t0 + dt)) key (elapse dt s)).
    split; [exact Ht1 | reflexivity].
  - split; [cbn [trace emit set_trace]; rewrite Ht0; reflexivity | exact Hi0].
Qed.

Lemma setup_relays_off t0 a i :
  (i < numRelays)%nat -> relay_is_on i (setup (power_on t0 a)) = false.
Proof.
  intros Hlt. destruct i as [| [| i]]; [reflexivity | reflexivity |].
  unfold numRelays in Hlt. simpl in Hlt. lia.
Qed.

(** X4.  The first pass of [loop] after [setup] sends the station ID, if it
    starts at least one millisecond (and at most 2^31) after [setup] read
    the clock: the ID message is the first thing transmitted, [idNeeded] is
    clear afterwards and the next ID check is [ID_PERIOD] after the start of
    that pass.  A pass that starts within the same millisecond as [setup]
    sends nothing and leaves the ID pending. *)
Theorem startup_id (t0 a dt key : Z) :
  1 <= dt <= 2 ^ 31 ->
  let s := setup (power_on t0 a) in
  let s' := tick (dt, key) s in
  idNeeded s' = false /\
  nextID s' = wrap32 (wrap32 (t0 + dt) + ID_PERIOD) /\
  (exists s1, trace s1 = trace s /\
              trace s' = trace (SendMorse idMsg 0 s1) ++ [ESleep]) /\
  trace (tick (0, key) s) = trace s ++ [ESleep] /\
  idNeeded (tick (0, key) s) = true.
Proof.
  intros Hdt.
  exact (first_pass_after_setup (setup (power_on t0 a)) t0 dt key
           eq_refl eq_refl eq_refl eq_refl eq_refl (setup_relays_off t0 a) Hdt).
Qed.

(** ** Elements and the character table *)


(** X5.  [sendElements] undoes the packing of [cwtable]: for one to four
    element codes, each 1, 2 or 3, packed two bits apiece from the top of a
    byte, it sends exactly those elements in order and stops at the fill.  A
    byte of 0 holds no element: if none of [DIT], [DAH], [WB] is the code 0,
    nothing is sent for it. *)
Theorem sendElements_unpacks (es : list Z) (s : state) :
  es <> [] -> (length es <= 4)%nat -> Forall (fun e => 1 <= e <= 3) es ->
  0 <= pack_elements es < 256 /\
  sendElements (pack_elements es) s = fold_left (fun st e => sendElement e st) es s /\
  (DIT <> 0 -> DAH <> 0 -> WB <> 0 -> sendElements 0 s = s).
Proof.
  intros Hne Hlen Hes.
  split; [| split].
  - destruct es as [| a [| b [| c [| d [| ? ?]]]]]; simpl in Hlen; try lia;
      try contradiction;
      repeat match goal with
             | H : Forall _ (_ :: _) |- _ => inversion H; clear H; subst
             end;
      repeat match goal with
             | H : 1 <= ?e <= 3 |- _ =>
                 assert (e = 1 \/ e = 2 \/ e = 3) as [-> | [-> | ->]] by lia; clear H
             end;
      vm_compute; split; congruence.
  - destruct es as [| a [| b [| c [| d [| ? ?]]]]]; simpl in Hlen; try lia;
      try contradiction;
      repeat match goal with
             | H : Forall _ (_ :: _) |- _ => inversion H; clear H; subst
             end;
      repeat match goal with
             | H : 1 <= ?e <= 3 |- _ =>
                 assert (e = 1 \/ e = 2 \/ e = 3) as [-> | [-> | ->]] by lia; clear H
             end;
      reflexivity.
  - intros H1 H2 H3. unfold sendElements. simpl. unfold seq, sendElement.
    change (Z.shiftr (Z.land 0 192) 6) with 0.
    destruct (Z.eqb_spec 0 DIT); [congruence |].
    destruct (Z.eqb_spec 0 DAH); [congruence |].
    destruct (Z.eqb_spec 0 WB); [congruence |]. reflexivity.
Qed.

Lemma find_char_first c pre post : forall k,
  c <> 0 -> Forall (fun m => m <> 0 /\ m <> c) pre ->
  0 <= k -> k + Z.of_nat (length pre) < 256 ->
  find_char c (pre ++ c :: post) k = (k + Z.of_nat (length pre), c).
Proof.
  induction pre as [| m pre IH]; intros k Hc Hpre Hk Hlen; simpl in *.
  - destruct (Z.eqb_spec c 0); [contradiction |].
    rewrite Z.eqb_refl, Z.add_0_r. reflexivity.
  - inversion Hpre as [| ? ? (Hm0 & Hmc) Hrest]; subst.
    destruct (Z.eqb_spec m 0); [contradiction |].
    destruct (Z.eqb_spec c m); [congruence |].
    unfold to_uchar. rewrite Z.mod_small by lia.
    rewrite IH by (assumption || lia). f_equal. lia.
Qed.


(** X6.  [sendChar] looks a character up by its first position in
    [chtable]: for a nonzero [c] other than '-' whose first occurrence is at
    offset [n] below 128, it sends the element bytes [cwtable[2n]] and
    [cwtable[2n+1]], in that order, followed by one [CharBreak] unless [c]
    is the space. *)
Theorem sendChar_looks_up (c : Z) (pre post : list Z) (s : state) :
  chtable = pre ++ c :: post ->
  c <> 0 -> Forall (fun m => m <> 0 /\ m <> c) pre ->
  (length pre < 128)%nat -> c <> ch_dash ->
  let n := Z.of_nat (length pre) in
  in_chtable c = true /\
  sendChar c s =
    (if c =? ch_space then id else CharBreak)
      (sendElements (pgm_read_byte cwtable (2 * n + 1))
         (sendElements (pgm_read_byte cwtable (2 * n)) s)).
Proof.
  intros Htab Hc Hpre Hlen Hd n.
  assert (Hfind : find_char c chtable 0 = (n, c)).
  { rewrite Htab, (find_char_first c pre post 0) by (assumption || lia).
    reflexivity. }
  assert (Hin : in_chtable c = true).
  { unfold in_chtable. rewrite Hfind. simpl.
    destruct (Z.eqb_spec c 0); [contradiction | reflexivity]. }
  split; [exact Hin |].
  rewrite sendChar_found by assumption.
  unfold char_elements, seq. rewrite Hfind. cbn [fst].
  replace (to_uchar (Z.shiftl n 1)) with (2 * n).
  - destruct (c =? ch_space); reflexivity.
  - rewrite Z.shiftl_mul_pow2 by lia. unfold to_uchar.
    rewrite Z.mod_small by lia. lia.
Qed.


(** ** The shape of a transmission *)

(** X8.  Every [SendMorse] is one keying of the transmitter: PTT goes high,
    400 ms pass, then come Morse events only (tone, LED, delays: no PTT
    write and no relay write in between), and PTT goes low as the last
    thing.  Afterwards the PTT pin is low, [idNeeded] is set and the next ID
    check is [ID_PERIOD] after the end of the 400 ms.  An empty message
    without prefix is just the keying and unkeying. *)
Theorem SendMorse_keys_once (message : pgm_string) (prefix : Z) (s : state) :
  let s1 := SendMorse message prefix s in
  (exists l, trace s1 = trace s ++ [EWrite PTT HIGH; EDelay 400] ++ l ++ [EWrite PTT LOW] /\
             forallb morse_event l = true) /\
  pins s1 PTT = LOW /\ idNeeded s1 = true /\
  nextID s1 = wrap32 (wrap32 (clock s + 400) + ID_PERIOD) /\
  trace (SendMorse {| bytes := []; bytes_fit := eq_refl |} 0 s) =
    trace s ++ [EWrite PTT HIGH; EDelay 400; EWrite PTT LOW].
Proof.
  intros s1. subst s1. unfold SendMorse, seq.
  set (s0 := pttDown s).
  assert (Hbody : sends_morse
            ((if negb (prefix =? 0) then sendChar prefix ;; sendChar ch_space else id) ;;
             SendMorse_loop 256 (bytes message) 0))
    by auto using sends_morse_SendMorse_loop with tx.
  destruct (Hbody s0) as ((l & Ht & Hl) & _ & Hi & Hn). unfold seq in Ht, Hi, Hn.
  split; [| split; [| split; [| split]]].
  - exists l. split; [| exact Hl].
    unfold pttUp, digitalWrite, seq, emit, set_trace, set_pins. cbn [trace].
    rewrite Ht. subst s0. cbn. rewrite <- !app_assoc. reflexivity.
  - reflexivity.
  - unfold pttUp, digitalWrite, seq, emit, set_trace, set_pins. cbn [idNeeded].
    rewrite Hi. reflexivity.
  - unfold pttUp, digitalWrite, seq, emit, set_trace, set_pins. cbn [nextID].
    rewrite Hn. reflexivity.
  - assert (He : SendMorse_loop 256 [] 0 = id) by (vm_compute; reflexivity).
    cbn [bytes]. rewrite He. subst s0.
    transitivity (((trace s ++ [EWrite PTT HIGH]) ++ [EDelay 400]) ++ [EWrite PTT LOW]);
      [reflexivity | rewrite <- !app_assoc; reflexivity].
Qed.

(** ** The voltage report *)

Lemma tenths_bound a : 0 < a <= 1023 -> 11 <= 11830 / a <= 11830.
Proof.
  intros H. split.
  - apply Z.div_le_lower_bound; lia.
  - apply Z.div_le_upper_bound; [lia |]. nia.
Qed.

Lemma tenths_two_digits a : 0 < a -> (11830 / a <= 99 <-> 119 <= a).
Proof.
  intros H. split.
  - intros Hv. destruct (Z_lt_le_dec a 119) as [Hlt | Hge]; [| exact Hge].
    exfalso. assert (100 <= 11830 / a) by (apply Z.div_le_lower_bound; lia). lia.
  - intros Ha. assert (11830 / a < 100) by (apply Z.div_lt_upper_bound; lia). lia.
Qed.

(** No reading below 119 gives a first character that is a digit, the
    wrap-around of [char] included. *)
Lemma tenths_overflow_no_digit a :
  0 < a < 119 -> ~ (48 <= to_char (11830 / a / 10 + 48) <= 57).
Proof.
  intros Ha.
  assert (Hall : forallb (fun n => let c := to_char (11830 / Z.of_nat n / 10 + 48) in
                                   negb ((48 <=? c) && (c <=? 57)))
                   (List.seq 1 118) = true) by (vm_compute; reflexivity).
  rewrite forallb_forall in Hall.
  specialize (Hall (Z.to_nat a)).
  rewrite Z2Nat.id in Hall by lia. cbv zeta in Hall.
  assert (Hin : In (Z.to_nat a) (List.seq 1 118)) by (apply in_seq; lia).
  specialize (Hall Hin). apply negb_true_iff, andb_false_iff in Hall.
  destruct Hall as [H | H]; [apply Z.leb_gt in H | apply Z.leb_gt in H]; lia.
Qed.

(** X9.  [sendVcc] with an ADC reading [a] in 1..1023 sends the message
    "VCC " and then, in a keying of their own, two characters for
    [v = 11830 / a]: [(char)(v/10 + '0')] and [v%10 + '0'].  The second is
    always a decimal digit.  The first is a decimal digit exactly when the
    reading is at least 119, that is when [v] is below 100; for smaller
    readings the tens overflow the digits. *)
Theorem sendVcc_digits (s : state) :
  0 < adc s <= 1023 ->
  let v := 11830 / adc s in
  let tens := to_char (v / 10 + ch_0) in
  let units := v mod 10 + ch_0 in
  sendVcc s =
    pttUp (sendChar units (sendChar tens
      (pttDown (SendMorse vccMsg 0 (delay 100 (emit EAdcRef s)))))) /\
  ch_0 <= units <= 57 /\
  (ch_0 <= tens <= 57 <-> 119 <= adc s) /\
  (119 <= adc s -> tens = v / 10 + ch_0 /\ 10 * (tens - ch_0) + (units - ch_0) = v).
Proof.
  intros Ha v tens units.
  pose proof (tenths_bound (adc s) Ha) as Hv. fold v in Hv.
  assert (Hq : to_uint16 (Z.quot 11830 (analogRead ((emit EAdcRef ;; delay 100) s))) = v).
  { change (analogRead ((emit EAdcRef ;; delay 100) s)) with (adc s).
    rewrite Z.quot_div_nonneg by lia. unfold to_uint16. apply Z.mod_small. fold v. lia. }
  split; [| split; [| split]].
  - unfold sendVcc, readVcc. rewrite Hq. unfold seq.
    subst tens units.
    rewrite (to_char_ascii (v mod 10 + ch_0))
      by (unfold ch_0; pose proof (Z.mod_pos_bound v 10 ltac:(lia)); lia).
    reflexivity.
  - subst units. unfold ch_0. pose proof (Z.mod_pos_bound v 10 ltac:(lia)). lia.
  - subst tens. unfold ch_0. split.
    + intros Hd. destruct (Z_lt_le_dec (adc s) 119) as [Hlt | Hge]; [| exact Hge].
      exfalso. apply (tenths_overflow_no_digit (adc s)); [lia | exact Hd].
    + intros Hge. apply tenths_two_digits in Hge; [| lia]. fold v in Hge.
      assert (0 <= v / 10 <= 9).
      { split; [apply Z.div_pos; lia |].
        assert (v / 10 < 10) by (apply Z.div_lt_upper_bound; lia). lia. }
      rewrite to_char_ascii by lia. lia.
  - intros Hge. apply tenths_two_digits in Hge; [| lia]. fold v in Hge.
    assert (0 <= v / 10 <= 9).
    { split; [apply Z.div_pos; lia |].
        assert (v / 10 < 10) by (apply Z.div_lt_upper_bound; lia). lia. }
    subst tens units. unfold ch_0. rewrite to_char_ascii by lia.
    split; [reflexivity |]. pose proof (Z.div_mod v 10 ltac:(lia)). lia.
Qed.

(** ** Polling the decoder *)

Lemma loop_cmd_nextDTMF t s : nextDTMF (loop_cmd t s) = nextDTMF s.
Proof.
  unfold loop_cmd. destruct (cmdActive s); [| reflexivity].
  destruct (due (nextCmdTimeout s) t); [| reflexivity].
  unfold seq, set_cmdActive. cbn [nextDTMF].
  apply (transmits_SendMorse toMsg 0 s).
Qed.

Lemma after_checks_nextDTMF t s :
  nextDTMF (emit ESleep (for_upto numRelays (loop_relay t) (loop_id t (loop_cmd t s)))) =
  nextDTMF s.
Proof.
  cbn [nextDTMF emit set_trace].
  pose proof (keeps_ctl_for_upto numRelays (loop_relay t) (keeps_ctl_loop_relay t)
                (loop_id t (loop_cmd t s))) as (_ & _ & _ & -> & _).
  pose proof (keeps_ctl_loop_id t (loop_cmd t s)) as (_ & _ & _ & -> & _).
  apply loop_cmd_nextDTMF.
Qed.

Lemma poll_window (s s1 : state) (key' dt : Z) :
  nextDTMF s1 = wrap32 (millis s + DTMF_PERIOD) ->
  (0 <= clock (elapse dt s1) - clock s <= DTMF_PERIOD ->
   loop_dtmf (millis (elapse dt s1)) key' (elapse dt s1) = elapse dt s1) /\
  (DTMF_PERIOD < clock (elapse dt s1) - clock s <= DTMF_PERIOD + 2 ^ 31 ->
   due (nextDTMF (elapse dt s1)) (millis (elapse dt s1)) = true).
Proof.
  intros Hn.
  set (s2 := elapse dt s1).
  assert (Hn2 : nextDTMF s2 = wrap32 (wrap32 (clock s) + DTMF_PERIOD)) by exact Hn.
  assert (Hc : millis s2 = wrap32 (clock s + (clock s2 - clock s))).
  { unfold millis. f_equal. lia. }
  clearbody s2. split.
  - intros He. unfold loop_dtmf. rewrite Hn2, Hc.
    rewrite due_not_before by (unfold DTMF_PERIOD in *; lia). reflexivity.
  - intros He. rewrite Hn2, Hc. apply due_after. exact He.
Qed.

Lemma loop_polls_rearm key s :
  due (nextDTMF s) (millis s) = true ->
  nextDTMF (loop key s) = wrap32 (millis s + DTMF_PERIOD).
Proof.
  intros Hdue. rewrite loop_after_dtmf, after_checks_nextDTMF.
  unfold loop_dtmf. rewrite Hdue.
  destruct (checkDTMF key s) as [b sk]. reflexivity.
Qed.

(** X10.  The decoder is polled at most once per [DTMF_PERIOD]: a pass of
    [loop] that polls leaves [nextDTMF] at its own [timeNow + DTMF_PERIOD],
    whatever else the pass did; a pass that starts up to [DTMF_PERIOD]
    milliseconds after the start of that one does not sample the decoder and
    leaves the edge detector as it is, whatever is being heard; the first
    pass later than that polls again. *)
Theorem poll_rate_limited (s : state) (key key' dt : Z) :
  due (nextDTMF s) (millis s) = true ->
  let s1 := loop key s in
  let s2 := elapse dt s1 in
  nextDTMF s1 = wrap32 (millis s + DTMF_PERIOD) /\
  (0 <= clock s2 - clock s <= DTMF_PERIOD ->
   loop_dtmf (millis s2) key' s2 = s2) /\
  (DTMF_PERIOD < clock s2 - clock s <= DTMF_PERIOD + 2 ^ 31 ->
   due (nextDTMF s2) (millis s2) = true).
Proof.
  intros Hdue.
  exact (conj (loop_polls_rearm key s Hdue)
              (poll_window s (loop key s) key' dt (loop_polls_rearm key s Hdue))).
Qed.

(** ** Relays between the key and the deadline *)

Lemma not_due_run r lo hi d inputs : forall s,
  arrays_ok s ->
  (forall c, lo <= c <= hi -> due d (wrap32 c) = false) ->
  nextRelay s !!! r = d ->
  quiet inputs s = true -> ticks_between lo hi inputs s = true ->
  relayState (run inputs s) !!! r = relayState s !!! r.
Proof.
  induction inputs as [| i rest IH]; intros s Hok Hnd Hd Hq Ht; simpl in *; [reflexivity |].
  apply andb_true_iff in Hq as [Ha Hq]. apply negb_true_iff in Ha.
  apply andb_true_iff in Ht as [Hb Ht]. apply andb_true_iff in Hb as [Hlo Hhi].
  apply Z.leb_le in Hlo, Hhi.
  destruct (quiet_tick i s Hok Ha) as (Hok' & Hs & Hn & Hr).
  rewrite IH; [| exact Hok' | exact Hnd | rewrite Hn; exact Hd | exact Hq | exact Ht].
  rewrite Hr. unfold expires. rewrite Hd, Hnd by lia.
  rewrite !andb_false_r. reflexivity.
Qed.

(** X11.  A relay switched on for the relay period is not switched off
    early: through ticks without an accepted key that all start no later
    than [RELAY_PERIOD] milliseconds after the arming, the last of them
    exactly at the deadline included, it still reads on. *)
Theorem timed_relay_on_until_deadline (r : nat) (s : state) (inputs : list (Z * Z)) :
  (r < numRelays)%nat -> arrays_ok s -> dtmfKey s = timed_key r ->
  let s1 := processKey s in
  quiet inputs s1 = true ->
  ticks_between (clock s1) (clock s1 + RELAY_PERIOD) inputs s1 = true ->
  relay_is_on r (run inputs s1) = true.
Proof.
  intros Hr Hok Hk s1 Hq Ht.
  destruct (processKey_timed r s Hr Hok Hk) as (Hok1 & Hon & _ & Hd & _).
  fold s1 in Hok1, Hon, Hd.
  unfold relay_is_on.
  rewrite (not_due_run r (clock s1) (clock s1 + RELAY_PERIOD)
             (wrap32 (millis s1 + RELAY_PERIOD)) inputs s1); try assumption.
  intros c Hc. unfold millis.
  replace c with (clock s1 + (c - clock s1)) by lia.
  apply due_not_before. unfold RELAY_PERIOD in *. lia.
Qed.

(** ** Switching off by key *)

Lemma switch_off r s :
  (r < numRelays)%nat -> dtmfKey s = off_key r ->
  processKey_switch s = relayOff r s.
Proof.
  intros Hr Hk. unfold processKey_switch. rewrite Hk.
  destruct r as [| [| r]]; [reflexivity | reflexivity |].
  unfold numRelays in Hr. simpl in Hr. lia.
Qed.

Lemma relayOff_pin r s :
  (r < numRelays)%nat -> pins (relayOff r s) (relayPin !!! r) = lnot (onState !!! r).
Proof.
  intros Hr. unfold relayOff, seq, assign_relayState, set_relayState. cbn [pins].
  set (s0 := digitalWrite (relayPin !!! r) (lnot (onState !!! r)) s).
  destruct (transmits_SendMorse offMsg (to_char (Z.of_nat r + ch_1)) s0)
    as (_ & Hp2 & Hp3 & _).
  destruct r as [| [| r]];
    [etransitivity; [exact Hp2 | reflexivity]
    | etransitivity; [exact Hp3 | reflexivity]
    | unfold numRelays in Hr; simpl in Hr; lia].
Qed.

(** X12.  The off key of relay [r] runs [relayOff r] half a second after
    it is accepted, whether the relay was on or not: relay [r] then reads
    off with its pin at the off level, [stayOn] and [nextRelay] are as they
    were (a hold is not cleared), and the relay still reads off after any
    ticks without an accepted key. *)
Theorem off_key_switches_off (r : nat) (s : state) (inputs : list (Z * Z)) :
  (r < numRelays)%nat -> arrays_ok s -> dtmfKey s = off_key r ->
  let s1 := processKey s in
  s1 = set_dtmfKey 0 (relayOff r (delay 500 s)) /\
  relay_is_on r s1 = false /\
  pins s1 (relayPin !!! r) = lnot (onState !!! r) /\
  stayOn s1 = stayOn s /\ nextRelay s1 = nextRelay s /\
  (quiet inputs s1 = true -> relay_is_on r (run inputs s1) = false).
Proof.
  intros Hr Hok Hk s1.
  assert (Heq : s1 = set_dtmfKey 0 (relayOff r (delay 500 s))).
  { subst s1. rewrite processKey_nonzero by (rewrite Hk; destruct r; discriminate).
    rewrite (switch_off r) by (exact Hr || exact Hk). reflexivity. }
  pose proof (relayOff_pin r (delay 500 s) Hr) as Hp.
  destruct (relayOff_arrays r (delay 500 s)) as (Hnr & Hso & Hrs).
  assert (Hoff : relay_is_on r s1 = false).
  { rewrite Heq. unfold relay_is_on, set_dtmfKey. cbn [relayState].
    rewrite Hrs, list_lookup_total_insert_eq; [apply lnot_differs |].
    destruct Hok as (_ & Hl & _). change (relayState (delay 500 s)) with (relayState s).
    lia. }
  assert (Hok1 : arrays_ok s1).
  { rewrite Heq. destruct (keeps_ctl_relayOff r (delay 500 s))
      as (_ & _ & _ & _ & _ & _ & H1 & H2 & H3).
    destruct Hok as (Hn & Hr' & Hs).
    unfold arrays_ok, set_dtmfKey. cbn [nextRelay relayState stayOn].
    rewrite H1, H2, H3. repeat split; assumption. }
  split; [exact Heq |]. split; [exact Hoff |].
  split; [rewrite Heq; exact Hp |].
  split; [rewrite Heq; exact Hso |].
  split; [rewrite Heq; exact Hnr |].
  intros Hq. apply off_run; assumption.
Qed.

(** ** A key through [loop] *)

(** The checks of a pass after the decoder poll, with no command session
    open: the decoder globals and a held relay stay as the poll left them. *)
Lemma after_poll_held t r s :
  arrays_ok s -> cmdActive s = false -> stayOn s !!! r = true ->
  let s' := emit ESleep (for_upto numRelays (loop_relay t) (loop_id t (loop_cmd t s))) in
  relayState s' !!! r = relayState s !!! r /\ stayOn s' !!! r = true /\
  dtmfKey s' = dtmfKey s /\ waitForSpace s' = waitForSpace s /\
  nextDTMF s' = nextDTMF s.
Proof.
  intros Hok Hc Hh s'. subst s'.
  rewrite (loop_cmd_idle t s Hc).
  pose proof (loop_id_relays_kept t s) as K.
  pose proof (keeps_ctl_loop_id t s) as C.
  set (s1 := loop_id t s) in *.
  pose proof (relays_kept_arrays_ok _ _ K Hok) as Hok1.
  destruct (relay_pass t numRelays s1 Hok1 (Nat.le_refl _)) as (Hs & _ & _ & Hr).
  pose proof (keeps_ctl_for_upto numRelays (loop_relay t) (keeps_ctl_loop_relay t) s1) as C2.
  set (s2 := for_upto numRelays (loop_relay t) s1) in *.
  destruct K as (_ & Kr & Ks & _).
  destruct C as (_ & Ck & Cw & Cd & _). destruct C2 as (_ & Ck2 & Cw2 & Cd2 & _).
  cbn [relayState stayOn dtmfKey waitForSpace nextDTMF emit set_trace].
  rewrite Hr, Hs, Kr, Ks, Ck2, Cw2, Cd2, Ck, Cw, Cd.
  unfold expires. rewrite Ks, Hh. cbn [negb]. rewrite andb_false_r, andb_false_r.
  tauto.
Qed.

Lemma after_poll_ctl t s :
  cmdActive s = false ->
  ctl_kept s (emit ESleep (for_upto numRelays (loop_relay t) (loop_id t (loop_cmd t s)))).
Proof.
  intros Hc. rewrite (loop_cmd_idle t s Hc).
  eapply ctl_kept_trans; [apply keeps_ctl_loop_id |].
  eapply ctl_kept_trans;
    [apply (keeps_ctl_for_upto numRelays (loop_relay t)), keeps_ctl_loop_relay |].
  unfold ctl_kept. cbn. tauto.
Qed.

(** A pass whose poll is due and hears a key while none awaits release. *)
Lemma press_pass (s : state) (dt k : Z) :
  sketch_inv s -> waitForSpace s = false -> k <> 0 ->
  due (nextDTMF s) (wrap32 (clock s + dt)) = true ->
  sketch_inv (tick (dt, k) s) /\
  waitForSpace (tick (dt, k) s) = true /\ dtmfKey (tick (dt, k) s) = k /\
  nextDTMF (tick (dt, k) s) = wrap32 (wrap32 (clock s + dt) + DTMF_PERIOD).
Proof.
  intros Hinv Hw Hk Hdue.
  split; [apply tick_inv, Hinv |].
  set (s0 := elapse dt s).
  set (t1 := wrap32 (clock s + dt)) in *.
  set (sA := set_nextDTMF (wrap32 (t1 + DTMF_PERIOD))
               (set_waitForSpace true (set_dtmfKey k s0))).
  assert (HA : loop_dtmf t1 k s0 = sA).
  { unfold loop_dtmf. change (nextDTMF s0) with (nextDTMF s). rewrite Hdue.
    unfold checkDTMF. change (waitForSpace s0) with (waitForSpace s). rewrite Hw.
    destruct (Z.eqb_spec k 0) as [E | _]; [contradiction | reflexivity]. }
  assert (H1 : ctl_kept sA (tick (dt, k) s)).
  { unfold tick. cbn [fst snd]. rewrite loop_after_dtmf.
    change (millis (elapse dt s)) with t1. fold s0. rewrite HA.
    apply after_poll_ctl. apply Hinv. }
  destruct H1 as (_ & Hk1 & Hw1 & Hd1 & _).
  split; [exact Hw1 |]. split; [exact Hk1 | exact Hd1].
Qed.

(** A pass whose poll is due and hears silence while the hold key of relay
    [r] awaits release. *)
Lemma release_hold_pass (s1 : state) (r : nat) (dt : Z) :
  sketch_inv s1 -> (r < numRelays)%nat ->
  waitForSpace s1 = true -> dtmfKey s1 = hold_key r ->
  due (nextDTMF s1) (wrap32 (clock s1 + dt)) = true ->
  relay_is_on r (tick (dt, 0) s1) = true /\ stayOn (tick (dt, 0) s1) !!! r = true /\
  dtmfKey (tick (dt, 0) s1) = 0 /\ waitForSpace (tick (dt, 0) s1) = false.
Proof.
  intros Hinv1 Hr Hw1 Hk1 Hdue2.
  set (s1e := elapse dt s1).
  set (t2 := wrap32 (clock s1 + dt)) in *.
  set (sK := processKey (set_waitForSpace false s1e)).
  assert (HB : loop_dtmf t2 0 s1e = set_nextDTMF (wrap32 (t2 + DTMF_PERIOD)) sK).
  { unfold loop_dtmf. change (nextDTMF s1e) with (nextDTMF s1). rewrite Hdue2.
    unfold checkDTMF. change (waitForSpace s1e) with (waitForSpace s1). rewrite Hw1.
    cbn [Z.eqb]. change (dtmfKey (set_waitForSpace false s1e)) with (dtmfKey s1).
    rewrite Hk1.
    destruct (Z.eqb_spec (hold_key r) 0) as [E | _];
      [exfalso; revert E; apply hold_key_nonzero | reflexivity]. }
  assert (Hok1 : arrays_ok (set_waitForSpace false s1e)) by apply Hinv1.
  destruct (processKey_hold r (set_waitForSpace false s1e) Hr Hok1 Hk1)
    as (HokK & HonK & HsK).
  destruct (processKey_ctl (set_waitForSpace false s1e))
    as (Hk0 & _ & HwK & _ & _ & HcK & _).
  fold sK in HokK, HonK, HsK, Hk0, HwK, HcK.
  assert (HcK' : cmdActive sK = false) by (rewrite HcK; apply Hinv1).
  destruct (after_poll_held t2 r (set_nextDTMF (wrap32 (t2 + DTMF_PERIOD)) sK)
              HokK HcK' HsK) as (Hrs & Hso & Hkk & Hww & _).
  assert (E2 : tick (dt, 0) s1 =
               emit ESleep (for_upto numRelays (loop_relay t2)
                 (loop_id t2 (loop_cmd t2 (set_nextDTMF (wrap32 (t2 + DTMF_PERIOD)) sK))))).
  { unfold tick. cbn [fst snd]. rewrite loop_after_dtmf.
    change (millis (elapse dt s1)) with t2. fold s1e. rewrite HB. reflexivity. }
  rewrite E2. unfold relay_is_on. rewrite Hrs, Hso, Hkk, Hww.
  split; [exact HonK |]. split; [reflexivity |]. split; [exact Hk0 |]. exact HwK.
Qed.

(** X13.  Pressing and releasing the hold key of relay [r], seen by [loop]:
    the key is heard by a poll that is due, and silence is heard by a later
    pass whose poll is due again.  After the first pass the key is latched
    and awaits its release; at the end of the second, relay [r] reads on and
    is held, and the key is used up. *)
Theorem press_release_holds_relay (r : nat) (s : state) (dt1 dt2 : Z) :
  reachable s -> (r < numRelays)%nat -> waitForSpace s = false ->
  due (nextDTMF s) (wrap32 (clock s + dt1)) = true ->
  let s1 := tick (dt1, hold_key r) s in
  let s2 := tick (dt2, 0) s1 in
  DTMF_PERIOD < clock s1 + dt2 - (clock s + dt1) <= DTMF_PERIOD + 2 ^ 31 ->
  (waitForSpace s1 = true /\ dtmfKey s1 = hold_key r) /\
  relay_is_on r s2 = true /\ stayOn s2 !!! r = true /\
  dtmfKey s2 = 0 /\ waitForSpace s2 = false.
Proof.
  intros Hreach Hr Hw Hdue.
  destruct (press_pass s dt1 (hold_key r) (reachable_inv s Hreach) Hw
              (hold_key_nonzero r) Hdue) as (Hinv1 & Hw1 & Hk1 & Hd1).
  generalize dependent (tick (dt1, hold_key r) s). intros s1 Hinv1 Hw1 Hk1 Hd1.
  cbv zeta. intros He.
  split; [split; assumption |].
  apply (release_hold_pass s1 r dt2 Hinv1 Hr Hw1 Hk1).
  rewrite Hd1.
  replace (clock s1 + dt2) with (clock s + dt1 + (clock s1 + dt2 - (clock s + dt1))) by lia.
  apply due_after. exact He.
Qed.

(** ** A key accepted while the station ID is due *)

Lemma sendChar_nextID c s : nextID (sendChar c s) = nextID s.
Proof. apply (sends_morse_sendChar c s). Qed.

Lemma relayOff_rearm r s :
  nextID (relayOff r s) = wrap32 (wrap32 (clock s + 400) + ID_PERIOD).
Proof.
  unfold relayOff, seq, assign_relayState, set_relayState. cbn [nextID].
  rewrite (proj1 (proj2 (SendMorse_flag _ _ _))). reflexivity.
Qed.

Lemma relayOn_rearm r p s :
  nextID (relayOn r p s) = wrap32 (wrap32 (clock s + 400) + ID_PERIOD).
Proof.
  unfold relayOn, seq, assign_relayState, set_relayState. cbn [nextID].
  destruct p; rewrite (proj1 (proj2 (SendMorse_flag _ _ _))); reflexivity.
Qed.

Lemma timed_branch_rearm r s :
  nextID ((relayOn r false ;;
           assign_stayOn r false ;;
           (fun s => assign_nextRelay r (wrap32 (millis s + RELAY_PERIOD)) s)) s) =
  wrap32 (wrap32 (clock s + 400) + ID_PERIOD).
Proof.
  unfold seq, assign_stayOn, assign_nextRelay, set_stayOn, set_nextRelay.
  cbn [nextID]. apply relayOn_rearm.
Qed.

Lemma hold_branch_rearm r s :
  nextID ((relayOn r true ;; assign_stayOn r true) s) =
  wrap32 (wrap32 (clock s + 400) + ID_PERIOD).
Proof.
  unfold seq, assign_stayOn, set_stayOn. cbn [nextID]. apply relayOn_rearm.
Qed.

Lemma echo_branch_rearm s :
  nextID ((pttDown ;; (fun s => sendChar (dtmfKey s) s) ;; sendChar ch_query ;; pttUp) s) =
  wrap32 (wrap32 (clock s + 400) + ID_PERIOD).
Proof.
  unfold seq, pttUp, digitalWrite. unfold seq, emit, set_trace, set_pins. cbn [nextID].
  rewrite !sendChar_nextID. reflexivity.
Qed.

(** Every branch of the [switch] but the voltage report keys the transmitter
    once, first thing. *)
Lemma switch_rearm s :
  dtmfKey s <> ch_B ->
  nextID (processKey_switch s) = wrap32 (wrap32 (clock s + 400) + ID_PERIOD).
Proof.
  intros Hb. unfold processKey_switch. cbv zeta.
  destruct (dtmfKey s =? ch_1); [apply relayOff_rearm |].
  destruct (dtmfKey s =? ch_2); [apply timed_branch_rearm |].
  destruct (dtmfKey s =? ch_3); [apply hold_branch_rearm |].
  destruct (dtmfKey s =? ch_4); [apply relayOff_rearm |].
  destruct (dtmfKey s =? ch_5); [apply timed_branch_rearm |].
  destruct (dtmfKey s =? ch_6); [apply hold_branch_rearm |].
  destruct (Z.eqb_spec (dtmfKey s) ch_B); [contradiction |].
  apply echo_branch_rearm.
Qed.

Lemma processKey_rearm s :
  dtmfKey s <> 0 -> dtmfKey s <> ch_B ->
  nextID (processKey s) = wrap32 (wrap32 (clock s + 900) + ID_PERIOD).
Proof.
  intros Hk Hb. rewrite processKey_nonzero by exact Hk.
  unfold set_dtmfKey. cbn [nextID].
  rewrite switch_rearm by exact Hb.
  change (clock (delay 500 s)) with (clock s + 500).
  replace (clock s + 500 + 400) with (clock s + 900) by lia. reflexivity.
Qed.

Lemma accepts_inv key s :
  accepts key s = true ->
  due (nextDTMF s) (millis s) = true /\ dtmfKey s <> 0 /\
  checkDTMF key s = (true, set_waitForSpace false s).
Proof.
  unfold accepts. intros H. apply andb_true_iff in H as [Hd Hf].
  split; [exact Hd |].
  unfold checkDTMF in *.
  destruct (waitForSpace s); [| destruct (negb (key =? 0)); discriminate Hf].
  destruct (key =? 0); [| discriminate Hf].
  change (dtmfKey (set_waitForSpace false s)) with (dtmfKey s) in *.
  destruct (Z.eqb_spec (dtmfKey s) 0) as [E | E]; [discriminate Hf |].
  split; [exact E | reflexivity].
Qed.

Lemma loop_relay_flag t i s : idNeeded s = true -> idNeeded (loop_relay t i s) = true.
Proof.
  intros H. unfold loop_relay.
  destruct (((relayState s !!! i) =? (onState !!! i)) && negb (stayOn s !!! i));
    [| exact H].
  destruct (due (nextRelay s !!! i) t); [apply relayOff_flag | exact H].
Qed.

Lemma relay_checks_flag t n : forall s,
  idNeeded s = true -> idNeeded (for_upto n (loop_relay t) s) = true.
Proof.
  induction n as [| n IH]; intros s H; simpl; [exact H |].
  apply loop_relay_flag, IH, H.
Qed.

(** X14.  A pass of [loop] that accepts a key other than 'B', with no
    command session open, skips its station-ID check whether or not the ID
    deadline was due when the pass started: [processKey] waits 500 ms and
    keys the transmitter, [pttDown] puts the ID deadline [ID_PERIOD] after
    the end of its 400 ms, and the check, made with the [timeNow] of the start
    of the pass, finds it not due.  The pass is the poll followed by the relay
    checks, and it ends with [idNeeded] set: the ID waits for a later
    pass. *)
Theorem accepted_key_defers_id (key : Z) (s : state) :
  accepts key s = true -> cmdActive s = false -> dtmfKey s <> ch_B ->
  let t := millis s in
  let s1 := loop_dtmf t key s in
  s1 = set_nextDTMF (wrap32 (t + DTMF_PERIOD)) (processKey (set_waitForSpace false s)) /\
  idNeeded s1 = true /\
  nextID s1 = wrap32 (wrap32 (clock s + 900) + ID_PERIOD) /\
  due (nextID s1) t = false /\
  loop_id t (loop_cmd t s1) = s1 /\
  loop key s = emit ESleep (for_upto numRelays (loop_relay t) s1) /\
  idNeeded (loop key s) = true.
Proof.
  intros Ha Hc Hb. cbv zeta.
  destruct (accepts_inv key s Ha) as (Hd & Hk & Hchk).
  assert (E1 : loop_dtmf (millis s) key s =
               set_nextDTMF (wrap32 (millis s + DTMF_PERIOD))
                 (processKey (set_waitForSpace false s))).
  { unfold loop_dtmf. rewrite Hd, Hchk. reflexivity. }
  assert (Hi : idNeeded (loop_dtmf (millis s) key s) = true).
  { rewrite E1. unfold set_nextDTMF. cbn [idNeeded].
    apply (processKey_flag (set_waitForSpace false s)). exact Hk. }
  assert (Hn : nextID (loop_dtmf (millis s) key s) =
               wrap32 (wrap32 (clock s + 900) + ID_PERIOD)).
  { rewrite E1. unfold set_nextDTMF. cbn [nextID].
    apply (processKey_rearm (set_waitForSpace false s)); assumption. }
  assert (Hnd : due (nextID (loop_dtmf (millis s) key s)) (millis s) = false).
  { rewrite Hn. unfold millis.
    replace (clock s) with (clock s + 900 + -900) at 2 by lia.
    apply due_not_before. unfold ID_PERIOD. lia. }
  assert (Hca : cmdActive (loop_dtmf (millis s) key s) = false).
  { rewrite E1. unfold set_nextDTMF. cbn [cmdActive].
    destruct (processKey_ctl (set_waitForSpace false s)) as (_ & _ & _ & _ & _ & Hp & _).
    rewrite Hp. exact Hc. }
  assert (E2 : loop_id (millis s) (loop_cmd (millis s) (loop_dtmf (millis s) key s)) =
               loop_dtmf (millis s) key s).
  { unfold loop_cmd. rewrite Hca. unfold loop_id. rewrite Hnd. reflexivity. }
  assert (E3 : loop key s =
               emit ESleep (for_upto numRelays (loop_relay (millis s))
                              (loop_dtmf (millis s) key s))).
  { rewrite loop_after_dtmf, E2. reflexivity. }
  split; [exact E1 |]. split; [exact Hi |]. split; [exact Hn |]. split; [exact Hnd |].
  split; [exact E2 |]. split; [exact E3 |].
  rewrite E3. unfold emit, set_trace. cbn [idNeeded].
  apply relay_checks_flag, Hi.
Qed.
End Facts.

(** * The statements at work on the sample table *)

#[local] Existing Instance sample_cwtable_h.

Lemma ready_ok : arrays_ok ready.
Proof. vm_compute. repeat split. Qed.

Lemma ready_arrays_ok key : arrays_ok (set_dtmfKey key ready).
Proof. vm_compute. repeat split. Qed.

(** Now just before the counter wraps, deadline just after: not yet due,
    though the deadline is the smaller number. *)
Lemma deadlines_use_signed_difference_witness :
  (0 <= 4294967295 < 2 ^ 32 /\ 0 <= 5 < 2 ^ 32) /\
  (due 5 4294967295 = true <-> signed32 (wrap32 (5 - 4294967295)) < 0) /\
  due 5 4294967295 = false.
Proof.
  split; [lia |]. split; [| reflexivity].
  apply (deadlines_use_signed_difference 4294967295 5 0 0%nat
           ready); lia.
Defined.

(** '2' heard for three polls, then silence. *)
Lemma checkDTMF_press_release_witness :
  fst (checkDTMF_run [50; 50; 50; 0] ready) = [false; false; false; true] /\
  dtmfKey (snd (checkDTMF_run [50; 50; 50; 0] ready)) = 50.
Proof.
  pose proof (checkDTMF_press_release ready 50 [50; 50]) as H.
  destruct H as (H1 & H2 & _).
  - reflexivity.
  - discriminate.
  - repeat constructor; discriminate.
  - split; [exact H1 | exact H2].
Defined.

(** '2' accepted on a board fresh from [setup]; a tick 50 ms later, then one
    a millisecond past the relay period, then one more. *)
Lemma key2_relay0_on_then_auto_off_witness :
  let s := set_dtmfKey ch_2 ready in
  relay_is_on 0 s = false /\
  relay_is_on 0 (processKey s) = true /\
  relay_is_on 0 (run ([(50, 0)] ++ (RELAY_PERIOD - 49, 0) :: [(10, 0)]) (processKey s)) = false.
Proof.
  pose proof (key2_relay0_on_then_auto_off
                (set_dtmfKey ch_2 ready)
                [(50, 0)] [(10, 0)] (RELAY_PERIOD - 49, 0)
                (ready_arrays_ok ch_2) eq_refl eq_refl) as [(Hon & _) Hoff].
  split; [reflexivity |]. split; [exact Hon |].
  apply Hoff.
  - vm_compute. reflexivity.
  - vm_compute. split; [reflexivity | discriminate].
Defined.

(** '5' accepted; relay 1 goes off at a tick one millisecond past the relay
    period. *)
Lemma timed_relay_off_after_period_witness :
  let s := set_dtmfKey ch_5 ready in
  relay_is_on 1 (processKey s) = true /\
  relay_is_on 1 (run ([] ++ (RELAY_PERIOD + 1, 0) :: []) (processKey s)) = false.
Proof.
  pose proof (timed_relay_off_after_period 1
                (set_dtmfKey ch_5 ready)
                (processKey (set_dtmfKey ch_5 ready))
                [] [] (RELAY_PERIOD + 1, 0)
                ltac:(unfold numRelays; simpl; lia) (ready_arrays_ok ch_5) eq_refl)
    as [(Hon & _) Hoff].
  split; [exact Hon |].
  apply Hoff.
  - vm_compute. reflexivity.
  - vm_compute. split; [reflexivity | discriminate].
Defined.

(** C4 as it is worded fails.  '5' is accepted on a board fresh from [setup];
    the next tick comes exactly [RELAY_PERIOD] milliseconds after the arming,
    with no key accepted: at least the period has elapsed, the deadline test
    sees a difference of 0, which is not negative, and relay 1 still reads
    on after that tick. *)
Lemma timed_relay_on_at_exact_period :
  ~ (forall (tables : cwtable_h) (r : nat) (s : state)
            (pre post : list (Z * Z)) (i : Z * Z),
        (r < numRelays)%nat -> arrays_ok s -> dtmfKey s = timed_key r ->
        let s1 := processKey s in
        quiet (pre ++ i :: post) s1 = true ->
        RELAY_PERIOD <= clock (run pre s1) + fst i - clock s1 ->
        relay_is_on r (run (pre ++ i :: post) s1) = false).
Proof.
  intros H.
  pose proof (H sample_cwtable_h 1%nat (set_dtmfKey ch_5 ready) [] [] (RELAY_PERIOD, 0)
                ltac:(unfold numRelays; simpl; lia) (ready_arrays_ok ch_5) eq_refl) as H1.
  cbv zeta in H1.
  assert (Hq : quiet ([] ++ [(RELAY_PERIOD, 0)]) (processKey (set_dtmfKey ch_5 ready)) = true)
    by (vm_compute; reflexivity).
  assert (He : RELAY_PERIOD <=
               clock (run [] (processKey (set_dtmfKey ch_5 ready))) + fst (RELAY_PERIOD, 0) -
               clock (processKey (set_dtmfKey ch_5 ready)))
    by (vm_compute; discriminate).
  assert (Hon : relay_is_on 1 (run ([] ++ [(RELAY_PERIOD, 0)])
                                 (processKey (set_dtmfKey ch_5 ready))) = true)
    by (vm_compute; reflexivity).
  pose proof (eq_trans (eq_sym Hon) (H1 Hq He)) as Habs.
  discriminate Habs.
Qed.

(** Nor does the check fire at a tick that comes 2^31 milliseconds or so
    late: by then the 32-bit difference is positive again. *)
Example timed_relay_on_beyond_reach :
  let s1 := processKey (set_dtmfKey ch_5 ready) in
  relay_is_on 1 (tick (RELAY_PERIOD + 2 ^ 31 + 1, 0) s1) = true /\
  relay_is_on 1 (tick (RELAY_PERIOD + 2 ^ 31, 0) s1) = false.
Proof. vm_compute. split; reflexivity. Qed.

(** '6' accepted; relay 1 is still on after ticks spanning more than the
    relay period. *)
Lemma held_relay_stays_on_witness :
  let s1 := processKey (set_dtmfKey ch_6 ready) in
  stayOn s1 !!! 1%nat = true /\
  relay_is_on 1 (run [(10, 0); (400000, 0); (5, 0)] s1) = true /\
  loop_relay 123456 1 s1 = s1.
Proof.
  pose proof (held_relay_stays_on 1
                (set_dtmfKey ch_6 ready)
                (processKey (set_dtmfKey ch_6 ready))
                [(10, 0); (400000, 0); (5, 0)] 123456
                ltac:(unfold numRelays; simpl; lia) (ready_arrays_ok ch_6) eq_refl)
    as ((_ & Hs) & Hrun & Hchk).
  split; [exact Hs |]. split.
  - apply Hrun. vm_compute. reflexivity.
  - apply Hchk. exact Hs.
Defined.

(** 'C' accepted. *)
Lemma unmapped_key_echoed_witness :
  let s := set_dtmfKey ch_C ready in
  mapped_key ch_C = false /\
  relayState (processKey s) = relayState s /\ stayOn (processKey s) = stayOn s /\
  nextRelay (processKey s) = nextRelay s.
Proof.
  pose proof (unmapped_key_echoed
                (set_dtmfKey ch_C ready)
                ltac:(discriminate) eq_refl) as (_ & H1 & H2 & H3 & _).
  split; [reflexivity |]. split; [exact H1 |]. split; [exact H2 | exact H3].
Defined.

(** The first pass after [setup], one millisecond in: the ID is due and
    needed.  The same pass with the flag clear sends nothing, and neither do
    two more passes after it. *)
Lemma station_id_check_witness :
  let sp := elapse 1 (set_idNeeded false ready) in
  idNeeded (pttDown ready) = true /\
  idNeeded (SendMorse offMsg ch_1 ready) = true /\
  due (nextID ready) 1 = true /\
  loop_id 1 ready =
    set_nextID (wrap32 (1 + ID_PERIOD)) (set_idNeeded false (SendMorse idMsg 0 ready)) /\
  keys_ptt 0 sp = false /\
  trace (loop 0 sp) = trace sp ++ [ESleep] /\
  nextID (loop 0 sp) = wrap32 (millis sp + ID_PERIOD) /\
  idNeeded (run [(1, 0); (50, 0)] sp) = false /\
  trace (run [(1, 0); (50, 0)] sp) = trace sp ++ [ESleep; ESleep].
Proof.
  pose proof (station_id_check 1 0 1 ready (elapse 1 (set_idNeeded false ready))
                offMsg ch_1 [(1, 0); (50, 0)])
    as ((_ & Hdown & _) & (Hsend & _) & _ & _ & _ & Hcheck & _ & Hpass & Hrun).
  assert (Hk : keys_ptt 0 (elapse 1 (set_idNeeded false ready)) = false)
    by (vm_compute; reflexivity).
  destruct (Hcheck eq_refl) as (_ & _ & Hsent & _).
  destruct (Hpass Hk) as (_ & Hclear & _).
  destruct (Hclear eq_refl) as (Ht & _ & Hn).
  destruct (Hrun eq_refl ltac:(vm_compute; reflexivity)) as (Hi2 & Ht2).
  split; [exact Hdown |]. split; [exact Hsend |]. split; [reflexivity |].
  split; [apply Hsent; reflexivity |]. split; [exact Hk |].
  split; [exact Ht |]. split; [apply Hn; reflexivity |].
  split; [exact Hi2 | exact Ht2].
Defined.

(** C7 as it is worded fails.  '2' is pressed and released, which keys the
    transmitter; '1' is pressed before the ID deadline and released after
    it.  The pass that hears the release starts with the ID deadline due and
    [idNeeded] set; it accepts the key, [pttDown] moves the deadline to its
    own [millis() + ID_PERIOD], the ID check of that pass finds it not due and
    sends no ID, and the pass ends with [nextID] not at its
    [timeNow + ID_PERIOD]. *)
Lemma id_deadline_moved_by_accepted_key :
  ~ (forall (tables : cwtable_h) (inputs : list (Z * Z)) (dt key : Z),
        due (nextID (elapse dt (run inputs ready)))
            (millis (elapse dt (run inputs ready))) = true ->
        nextID (tick (dt, key) (run inputs ready)) =
        wrap32 (millis (elapse dt (run inputs ready)) + ID_PERIOD)).
Proof.
  intros H.
  assert (Hd : due (nextID (elapse 40000 (run [(1, 50); (200, 0); (200, 49)] ready)))
                   (millis (elapse 40000 (run [(1, 50); (200, 0); (200, 49)] ready))) = true)
    by (vm_compute; reflexivity).
  pose proof (H sample_cwtable_h [(1, 50); (200, 0); (200, 49)] 40000 0 Hd) as H1.
  assert (Hn : nextID (tick (40000, 0) (run [(1, 50); (200, 0); (200, 49)] ready)) = 81869)
    by (vm_compute; reflexivity).
  assert (Hw : wrap32 (millis (elapse 40000 (run [(1, 50); (200, 0); (200, 49)] ready)) +
                       ID_PERIOD) = 80969) by (vm_compute; reflexivity).
  pose proof (eq_trans (eq_sym Hn) (eq_trans H1 Hw)) as Habs.
  discriminate Habs.
Qed.

(** Nor is [idNeeded] only ever the record of a keying: [setup] sets it, and
    the first pass sends the ID on a board that has never keyed PTT.  In the
    pass above the flag was set and the ID deadline due, and no ID went
    out: the flag is still set at its end. *)
Example id_at_startup_and_none_after_key :
  existsb ptt_keyed (trace ready) = false /\
  idNeeded ready = true /\
  existsb ptt_keyed (trace (tick (1, 0) ready)) = true /\
  idNeeded (elapse 40000 (run [(1, 50); (200, 0); (200, 49)] ready)) = true /\
  idNeeded (tick (40000, 0) (run [(1, 50); (200, 0); (200, 49)] ready)) = true.
Proof. vm_compute. repeat split. Qed.


(** Relay 1 switched off on a board fresh from [setup]. *)
Lemma relayOff_frame_witness :
  let s := ready in
  pins (relayOff 1 s) P3 = HIGH /\
  stayOn (relayOff 1 s) = stayOn s /\ nextRelay (relayOff 1 s) = nextRelay s /\
  relayState (relayOff 1 s) !!! 0%nat = relayState s !!! 0%nat /\
  pins (relayOff 1 s) P2 = pins s P2.
Proof.
  pose proof (relayOff_frame 1 ready
                ltac:(unfold numRelays; simpl; lia) ready_ok)
    as (Hp & _ & Hs & Hn & _ & Hother & _).
  destruct (Hother 0%nat ltac:(unfold numRelays; simpl; lia) ltac:(discriminate))
    as (Hr0 & _ & _ & Hp0).
  split; [exact Hp |]. split; [exact Hs |]. split; [exact Hn |].
  split; [exact Hr0 | exact Hp0].
Defined.

(** "up" is sent as "UP". *)
Lemma SendMorse_folds_lowercase_witness :
  let up := {| bytes := [117; 112]; bytes_fit := eq_refl |} in
  let u := {| bytes := [117]; bytes_fit := eq_refl |} in
  let U := {| bytes := [85]; bytes_fit := eq_refl |} in
  SendMorse up 0 ready = pttUp (sendChars [85; 80] (pttDown ready)) /\
  SendMorse u 0 ready = SendMorse U 0 ready.
Proof.
  pose proof (SendMorse_folds_lowercase
                {| bytes := [117; 112]; bytes_fit := eq_refl |}
                {| bytes := [117]; bytes_fit := eq_refl |}
                {| bytes := [85]; bytes_fit := eq_refl |}
                0 117 ready
                ltac:(repeat constructor; lia) ltac:(lia) eq_refl eq_refl)
    as (H1 & _ & _ & H2).
  split; [exact H1 | exact H2].
Defined.

(** ** Further statements at work on the sample table *)

Lemma ready_reachable inputs : reachable (run inputs ready).
Proof. exists 0, 512, inputs. reflexivity. Qed.

(** '2' is heard by the first poll; 200 ms after that pass the poll is due
    again. *)
Lemma latched_key_always_accepted_witness :
  let s := run [(1, 50)] ready in
  waitForSpace s = true /\ dtmfKey s <> 0 /\ accepts 0 (elapse 200 s) = true.
Proof.
  pose proof (latched_key_always_accepted (run [(1, 50)] ready) 200
                (ready_reachable [(1, 50)])
                ltac:(vm_compute; reflexivity) ltac:(vm_compute; reflexivity))
    as (H1 & H2 & _).
  split; [vm_compute; reflexivity |]. split; [exact H1 | exact H2].
Defined.

Lemma command_timeout_never_fires_witness :
  cmdActive ready = false /\ cmdActive (tick (1, 50) ready) = false.
Proof.
  pose proof (command_timeout_never_fires ready (1, 50) (ready_reachable []))
    as (H1 & _ & _ & H2).
  split; [exact H1 | exact H2].
Defined.

Lemma setup_all_off_witness :
  relay_is_on 1 (setup (power_on 7 300)) = false /\
  pins (setup (power_on 7 300)) P3 = HIGH /\
  nextID (setup (power_on 7 300)) = 7.
Proof.
  pose proof (setup_all_off (power_on 7 300) 1
                ltac:(vm_compute; repeat split) ltac:(unfold numRelays; simpl; lia))
    as (_ & H1 & H2 & _ & _ & _ & _ & _ & _ & H3 & _).
  split; [exact H1 |]. split; [exact H2 | exact H3].
Defined.

Lemma startup_id_witness :
  (1 <= 1 <= 2 ^ 31) /\
  idNeeded (tick (1, 0) (setup (power_on 0 512))) = false /\
  nextID (tick (1, 0) (setup (power_on 0 512))) = wrap32 (wrap32 (0 + 1) + ID_PERIOD).
Proof.
  pose proof (startup_id 0 512 1 0 ltac:(lia)) as (H1 & H2 & _).
  split; [lia |]. split; [exact H1 | exact H2].
Defined.

(** A dot and a dash: the byte of 'A'. *)
Lemma sendElements_unpacks_witness :
  pack_elements [1; 2] = 96 /\
  sendElements (pack_elements [1; 2]) ready = dah (dit ready).
Proof.
  pose proof (sendElements_unpacks [1; 2] ready ltac:(discriminate)
                ltac:(simpl; lia) ltac:(repeat constructor; lia)) as (_ & H & _).
  split; [reflexivity | exact H].
Defined.

(** 'T' is the sixteenth character of the sample table. *)
Lemma sendChar_looks_up_witness :
  in_chtable 84 = true /\
  sendChar 84 ready =
    CharBreak (sendElements (pgm_read_byte cwtable 31)
                 (sendElements (pgm_read_byte cwtable 30) ready)).
Proof.
  pose proof (sendChar_looks_up 84
                [32; 45; 63; 47; 49; 50; 52; 66; 67; 68; 70; 78; 79; 80; 82] [85; 86; 87]
                ready eq_refl ltac:(discriminate)
                ltac:(repeat constructor; discriminate) ltac:(simpl; lia)
                ltac:(discriminate)) as (H1 & H2).
  split; [exact H1 | exact H2].
Defined.



(** A reading of 512: 2.3 V. *)
Lemma sendVcc_digits_witness :
  (0 < adc ready <= 1023) /\
  sendVcc ready =
    pttUp (sendChar 51 (sendChar 50
      (pttDown (SendMorse vccMsg 0 (delay 100 (emit EAdcRef ready)))))).
Proof.
  pose proof (sendVcc_digits ready ltac:(vm_compute; split; [reflexivity | discriminate]))
    as (H & _).
  split; [vm_compute; split; [reflexivity | discriminate] | exact H].
Defined.

(** A pass that polls and sends nothing; 50 ms later a key is not heard,
    200 ms later the poll is due. *)
Lemma poll_rate_limited_witness :
  let s := elapse 1 (set_idNeeded false ready) in
  nextDTMF (loop 0 s) = 101 /\
  loop_dtmf (millis (elapse 50 (loop 0 s))) 50 (elapse 50 (loop 0 s)) = elapse 50 (loop 0 s) /\
  due (nextDTMF (elapse 200 (loop 0 s))) (millis (elapse 200 (loop 0 s))) = true.
Proof.
  pose proof (poll_rate_limited (elapse 1 (set_idNeeded false ready)) 0 50 50 eq_refl)
    as (H1 & H2 & _).
  pose proof (poll_rate_limited (elapse 1 (set_idNeeded false ready)) 0 50 200 eq_refl)
    as (_ & _ & H3).
  split; [exact H1 |]. split.
  - apply H2. vm_compute. split; discriminate.
  - apply H3. vm_compute. split; [reflexivity | discriminate].
Defined.

(** '2' accepted; a tick 50 ms later and one exactly at the deadline. *)
Lemma timed_relay_on_until_deadline_witness :
  let s1 := processKey (set_dtmfKey ch_2 ready) in
  relay_is_on 0 (run [(50, 0); (RELAY_PERIOD - 50, 0)] s1) = true.
Proof.
  apply (timed_relay_on_until_deadline 0 (set_dtmfKey ch_2 ready)
           [(50, 0); (RELAY_PERIOD - 50, 0)]
           ltac:(unfold numRelays; simpl; lia) (ready_arrays_ok ch_2) eq_refl);
    vm_compute; reflexivity.
Defined.

(** '6' then '4': relay 1 held on, then switched off by key. *)
Lemma off_key_switches_off_witness :
  let s := set_dtmfKey ch_4 (processKey (set_dtmfKey ch_6 ready)) in
  relay_is_on 1 s = true /\
  relay_is_on 1 (processKey s) = false /\
  stayOn (processKey s) !!! 1%nat = true /\
  relay_is_on 1 (run [(10, 0); (400000, 0)] (processKey s)) = false.
Proof.
  pose proof (off_key_switches_off 1 (set_dtmfKey ch_4 (processKey (set_dtmfKey ch_6 ready)))
                [(10, 0); (400000, 0)]
                ltac:(unfold numRelays; simpl; lia)
                ltac:(vm_compute; repeat split) eq_refl)
    as (_ & H1 & _ & H2 & _ & H3).
  split; [vm_compute; reflexivity |]. split; [exact H1 |]. split.
  - rewrite H2. vm_compute. reflexivity.
  - apply H3. vm_compute. reflexivity.
Defined.

(** '6' heard by the first poll after [setup], silence by a pass 10 ms after
    the first one ended. *)
Lemma press_release_holds_relay_witness :
  relay_is_on 1 (tick (10, 0) (tick (1, ch_6) ready)) = true /\
  stayOn (tick (10, 0) (tick (1, ch_6) ready)) !!! 1%nat = true.
Proof.
  pose proof (press_release_holds_relay 1 ready 1 10 (ready_reachable [])
                ltac:(unfold numRelays; simpl; lia) eq_refl
                ltac:(vm_compute; reflexivity)
                ltac:(vm_compute; split; [reflexivity | discriminate]))
    as (_ & H1 & H2 & _).
  split; [exact H1 | exact H2].
Defined.

(** '2' pressed and released, '1' pressed, and 40 s later the pass that
    hears its release: the ID deadline is due at its start, and the ID check
    is skipped. *)
Lemma accepted_key_defers_id_witness :
  due (nextID (elapse 40000 (run [(1, 50); (200, 0); (200, 49)] ready)))
      (millis (elapse 40000 (run [(1, 50); (200, 0); (200, 49)] ready))) = true /\
  idNeeded (elapse 40000 (run [(1, 50); (200, 0); (200, 49)] ready)) = true /\
  nextID (loop_dtmf (millis (elapse 40000 (run [(1, 50); (200, 0); (200, 49)] ready))) 0
            (elapse 40000 (run [(1, 50); (200, 0); (200, 49)] ready))) =
    wrap32 (wrap32 (clock (elapse 40000 (run [(1, 50); (200, 0); (200, 49)] ready)) + 900) +
            ID_PERIOD) /\
  idNeeded (tick (40000, 0) (run [(1, 50); (200, 0); (200, 49)] ready)) = true.
Proof.
  assert (Ha : accepts 0 (elapse 40000 (run [(1, 50); (200, 0); (200, 49)] ready)) = true)
    by (vm_compute; reflexivity).
  assert (Hc : cmdActive (elapse 40000 (run [(1, 50); (200, 0); (200, 49)] ready)) = false)
    by (vm_compute; reflexivity).
  assert (Hb : dtmfKey (elapse 40000 (run [(1, 50); (200, 0); (200, 49)] ready)) <> ch_B)
    by (vm_compute; discriminate).
  pose proof (accepted_key_defers_id 0 _ Ha Hc Hb) as H. cbv zeta in H.
  destruct H as (_ & _ & Hn & _ & _ & _ & Hi).
  split; [vm_compute; reflexivity |]. split; [vm_compute; reflexivity |].
  split; [exact Hn | exact Hi].
Defined.
